(** * The FiveM server update script, embedded and checked against its specification

    The development embeds the update script (the "Main Update Logic" program:
    stop the service, remove the old server files, download and extract the
    latest FXServer build, fix ownership, start the service) as a program in a
    small monad with state, a trace of observable actions, JavaScript
    exceptions and [process.exit].  Everything the script obtains from its
    surroundings (exit status of shell commands, failures of file system calls,
    HTTP responses, the clock) is read from an environment [Env], so a theorem
    quantified over [Env] and over the initial file system speaks about every
    run of the script. *)

From Stdlib Require Import ZArith Ascii.
From stdpp Require Import gmap strings list fin_maps.

Local Open Scope Z_scope.

(* ===================================================================== *)
(** ** Configuration (the constants at the top of both scripts)          *)
(* ===================================================================== *)

Definition FIVEM_USER : string := "fivem".
Definition BASE_DIR : string := "/home/" +:+ FIVEM_USER.
Definition SERVER_DIR : string := BASE_DIR +:+ "/server".
Definition LATEST_URL : string :=
  "https://runtime.fivem.net/artifacts/fivem/build_proot_linux/master/".

(** [path.join(dir, name)] for a normalised absolute [dir] and a single
    segment [name], the only way the script calls it. *)
Definition path_join (dir name : string) : string := dir +:+ "/" +:+ name.

(* ===================================================================== *)
(** ** The file system                                                    *)
(* ===================================================================== *)

Inductive node : Type :=
| Dir
| File (data : string).

#[global] Instance node_eq_dec : EqDecision node.
Proof. solve_decision. Defined.

(** A file system maps absolute paths to what is stored there. *)
Abbreviation FS := (gmap string node).

(** [inside p q]: the path [q] is [p] itself or lies below the directory [p]. *)
Definition inside (p q : string) : Prop :=
  q = p ∨ String.prefix (p +:+ "/") q = true.

#[global] Instance inside_dec p q : Decision (inside p q).
Proof. unfold inside. apply _. Defined.

(** Successful [fs.rmSync(p, { recursive: true, force: true })]. *)
Definition fs_remove_tree (p : string) (m : FS) : FS :=
  filter (λ kv, ¬ inside p kv.1) m.

(** Successful [fs.unlinkSync(p)]. *)
Definition fs_unlink (p : string) (m : FS) : FS := delete p m.

(** [fs.existsSync(p)] *)
Definition fs_exists (p : string) (m : FS) : bool :=
  bool_decide (is_Some (m !! p)).

(** A write stream opened on [p] (flag [w]) holding [data] once closed. *)
Definition fs_write (p : string) (data : string) (m : FS) : FS :=
  <[p := File data]> m.

Arguments fs_remove_tree : simpl never.
Arguments fs_unlink : simpl never.
Arguments fs_exists : simpl never.
Arguments fs_write : simpl never.

(* ===================================================================== *)
(** ** Errors, messages and observable events                             *)
(* ===================================================================== *)

(** What a JavaScript [throw] (or a rejected promise) carries. *)
Inductive JsError : Type :=
| FsError (path : string)          (* thrown by fs.rmSync / fs.unlinkSync *)
| HttpError (url : string)         (* axios rejects: network failure or non-2xx status *)
| NullMatchError                   (* [null[1]]: String.prototype.match found nothing *)
| WriterError (path : string).     (* the write stream emitted 'error' *)

Inductive Level : Type := Info | Success | Error | Console | ConsoleError.

Inductive Msg : Type :=
| Text (s : string)
| Started (t : Z)                  (* "Update process started at " + startTime.toISOString() *)
| CommandFailed (cmd : string)     (* "Command failed: " + command *)
| CommandStdout (cmd : string)     (* e.stdout of the failed command *)
| CommandStderr (cmd : string)     (* e.stderr of the failed command *)
| Thrown (e : JsError)             (* console.error(e) *)
| CompleteIn (ms : Z).             (* "Update complete in " + (ms / 1000).toFixed(2) + " seconds." *)

(** Outcome of streaming the archive into the write stream (lines 58-69).
    The writer is opened on line 58, before the request is awaited, and its
    'error' listener is attached on line 68, after it: a writer that fails to
    open emits 'error' while nobody listens.  The response stream gets no
    listener at all: when it is cut, the writer neither finishes nor fails. *)
Inductive Download : Type :=
| Rejected                         (* the streaming request itself rejects *)
| WriteFailed (partial : string)   (* writer 'error' heard on line 68, after [partial] was written *)
| Finished (data : string)         (* writer 'finish' *)
| OpenFailed                       (* the writer cannot open the file: 'error' with no listener *)
| Stalled (partial : string).      (* the response is cut after [partial]: nothing settles *)

Inductive Event : Type :=
| EClock (t : Z)                           (* new Date() *)
| ELog (l : Level) (m : Msg)               (* log.info / log.success / log.error / console.* *)
| EExec (cmd : string) (ok : bool)         (* execSync(cmd) and whether it returned *)
| ERmTree (path : string) (ok : bool)      (* fs.rmSync(path, {recursive, force}) *)
| EUnlink (path : string) (ok : bool)      (* fs.unlinkSync(path) *)
| EGet (url : string) (ok : bool)          (* axios.get(url) *)
| EOpenWrite (path : string)               (* fs.createWriteStream(path) *)
| EStream (url path : string) (r : Download)  (* the piped download *)
| EExit (code : Z).                        (* process.exit(code) *)

#[global] Instance JsError_eq_dec : EqDecision JsError.
Proof. solve_decision. Defined.
#[global] Instance Level_eq_dec : EqDecision Level.
Proof. solve_decision. Defined.
#[global] Instance Msg_eq_dec : EqDecision Msg.
Proof. solve_decision. Defined.
#[global] Instance Download_eq_dec : EqDecision Download.
Proof. solve_decision. Defined.
#[global] Instance Event_eq_dec : EqDecision Event.
Proof. solve_decision. Defined.

(* ===================================================================== *)
(** ** The environment of a run                                           *)
(* ===================================================================== *)

Record Env : Type := {
  (** the value of the [n]-th [new Date()], in milliseconds *)
  clock : nat → Z;
  (** does [execSync(cmd)] return (exit status 0)? *)
  sh_ok : string → bool;
  (** what the command does to the file system, whether it succeeds or not *)
  sh_fs : string → FS → FS;
  (** does the removal of this path throw? *)
  rm_throws : string → bool;
  (** what a throwing removal leaves behind *)
  rm_residue : string → FS → FS;
  (** [axios.get(url)]: the response body, [None] when the request rejects *)
  http_get : string → option string;
  (** the streamed download of [url] *)
  http_stream : string → Download;
}.

(* ===================================================================== *)
(** ** The monad: state, trace, exceptions and process exit               *)
(* ===================================================================== *)

Record World : Type := mkWorld {
  fs : FS;          (* the file system *)
  reads : nat;      (* how many times the clock has been read *)
}.

Inductive Res (A : Type) : Type :=
| Ret (a : A)              (* normal completion *)
| Throw (e : JsError)      (* an exception propagates *)
| Exit (code : Z).         (* the process ends: nothing runs afterwards *)
Arguments Ret {A} a.
Arguments Throw {A} e.
Arguments Exit {A} code.

Definition M (A : Type) : Type := World → Res A * World * list Event.

Definition ret {A} (a : A) : M A := λ w, (Ret a, w, []).

Definition bind {A B} (m : M A) (f : A → M B) : M B :=
  λ w,
    match m w with
    | (Ret a, w1, t1) =>
        match f a w1 with
        | (r, w2, t2) => (r, w2, t1 ++ t2)
        end
    | (Throw e, w1, t1) => (Throw e, w1, t1)
    | (Exit c, w1, t1) => (Exit c, w1, t1)
    end.

(** [try { m } catch (e) { h e }]; [process.exit] is not an exception. *)
Definition try_catch {A} (m : M A) (h : JsError → M A) : M A :=
  λ w,
    match m w with
    | (Throw e, w1, t1) =>
        match h e w1 with
        | (r, w2, t2) => (r, w2, t1 ++ t2)
        end
    | other => other
    end.

Definition throw {A} (e : JsError) : M A := λ w, (Throw e, w, []).
Definition emit (ev : Event) : M unit := λ w, (Ret tt, w, [ev]).
Definition get_fs : M FS := λ w, (Ret (fs w), w, []).
Definition set_fs (m : FS) : M unit :=
  λ w, (Ret tt, {| fs := m; reads := reads w |}, []).

Declare Scope js_scope.
Delimit Scope js_scope with js.
Notation "x <- m ;; k" := (bind m (λ x, k))
  (at level 100, m at next level, k at level 200, right associativity) : js_scope.
Notation "m ;; k" := (bind m (λ _, k))
  (at level 100, k at level 200, right associativity) : js_scope.
Local Open Scope js_scope.

(* ===================================================================== *)
(** ** Library calls used by the script                                   *)
(* ===================================================================== *)

Definition log (l : Level) (m : Msg) : M unit := emit (ELog l m).

Definition process_exit {A} (code : Z) : M A :=
  λ w, (Exit code, w, [EExit code]).

(** An 'error' event emitted while no listener is attached is thrown from
    the event loop: no [catch] block of the script sees it and the process
    dies with status 1. *)
Definition uncaught_error {A} : M A := λ w, (Exit 1, w, []).

(** The awaited promise never settles: [main] is never resumed, and once
    nothing else is pending the process ends by itself, with status 0. *)
Definition never_settles {A} : M A := λ w, (Exit 0, w, []).

Definition new_Date (E : Env) : M Z :=
  λ w, let t := clock E (reads w) in
       (Ret t, {| fs := fs w; reads := S (reads w) |}, [EClock t]).

(** [execSync(cmd)]: the command acts on the file system; [Ret false] stands
    for the exception [execSync] raises on a non-zero status. *)
Definition execSync (E : Env) (cmd : string) : M bool :=
  m <- get_fs ;;
  set_fs (sh_fs E cmd m) ;;
  emit (EExec cmd (sh_ok E cmd)) ;;
  ret (sh_ok E cmd).

Definition existsSync (p : string) : M bool :=
  m <- get_fs ;; ret (fs_exists p m).

Definition rmSync (E : Env) (p : string) : M unit :=
  m <- get_fs ;;
  if rm_throws E p then
    set_fs (rm_residue E p m) ;; emit (ERmTree p false) ;; throw (FsError p)
  else
    set_fs (fs_remove_tree p m) ;; emit (ERmTree p true).

Definition unlinkSync (E : Env) (p : string) : M unit :=
  m <- get_fs ;;
  if rm_throws E p then
    set_fs (rm_residue E p m) ;; emit (EUnlink p false) ;; throw (FsError p)
  else
    set_fs (fs_unlink p m) ;; emit (EUnlink p true).

Definition axios_get (E : Env) (url : string) : M string :=
  match http_get E url with
  | Some body => emit (EGet url true) ;; ret body
  | None => emit (EGet url false) ;; throw (HttpError url)
  end.

(** Lines 58-69: open the write stream, request the archive as a stream, pipe
    it into the writer and wait for the writer's ['finish'] or ['error'].  A
    writer that opens creates or truncates the file. *)
Definition download (E : Env) (url path : string) : M unit :=
  emit (EOpenWrite path) ;;
  emit (EStream url path (http_stream E url)) ;;
  m <- get_fs ;;
  match http_stream E url with
  | OpenFailed => uncaught_error
  | Rejected => set_fs (fs_write path "" m) ;; throw (HttpError url)
  | WriteFailed partial =>
      set_fs (fs_write path partial m) ;; throw (WriterError path)
  | Stalled partial =>
      set_fs (fs_write path partial m) ;; never_settles
  | Finished data => set_fs (fs_write path data m)
  end.

(* ===================================================================== *)
(** ** The build resolver                                                 *)
(* ===================================================================== *)

(** Both scripts resolve the latest build with the same expression (line 54
    of the update script, line 82 of the deployment script): the first match
    in [response.data] of the pattern

      href=Q([0-9-a-f]{40,}\/)Q        (Q stands for the double quote)

    of which capture group 1 is taken. *)

Definition quote : ascii := "034"%char.
Definition slash : ascii := "/"%char.

(** The literal prefix of the pattern: href= and the opening quote. *)
Definition href_open : list ascii := String.list_ascii_of_string "href=" ++ [quote].

(** The character class [[0-9-a-f]]: a digit, the hyphen, or a letter a to f. *)
Definition build_char (c : ascii) : bool :=
  let n := nat_of_ascii c in
  ((48 <=? n) && (n <=? 57) || (n =? 45) || (97 <=? n) && (n <=? 102))%nat.

Fixpoint strip_prefix (p s : list ascii) : option (list ascii) :=
  match p, s with
  | [], _ => Some s
  | a :: p', b :: s' => if Ascii.eqb a b then strip_prefix p' s' else None
  | _ :: _, [] => None
  end.

(** The greedy quantifier: the longest run of class characters, and the rest. *)
Fixpoint span_class (s : list ascii) : list ascii * list ascii :=
  match s with
  | c :: s' =>
      if build_char c then
        match span_class s' with (r, t) => (c :: r, t) end
      else ([], s)
  | [] => ([], [])
  end.

(** A match of the whole pattern starting at the first character of [s]; the
    result is capture group 1.  Neither ['/'] nor the quote belongs to the
    class, so giving back characters of the greedy run never helps: the run
    must be followed at once by the slash and the closing quote. *)
Definition match_here (s : list ascii) : option (list ascii) :=
  match strip_prefix href_open s with
  | Some s1 =>
      match span_class s1 with
      | (run, s2) =>
          if (40 <=? length run)%nat then
            match s2 with
            | c1 :: c2 :: _ =>
                if Ascii.eqb c1 slash && Ascii.eqb c2 quote
                then Some (run ++ [slash]) else None
            | _ => None
            end
          else None
      end
  | None => None
  end.

(** The pattern has no global flag: the match found is the leftmost one. *)
Fixpoint regex_exec (s : list ascii) : option (list ascii) :=
  match match_here s with
  | Some g => Some g
  | None =>
      match s with
      | [] => None
      | _ :: s' => regex_exec s'
      end
  end.

(** [response.data.match(...)[1]], [None] when [match] returns [null]. *)
Definition latestBuild (data : string) : option string :=
  String.string_of_list_ascii <$> regex_exec (String.list_ascii_of_string data).

(** [`${LATEST_URL}${latestBuild}fx.tar.xz`] *)
Definition downloadUrl (build : string) : string :=
  LATEST_URL +:+ build +:+ "fx.tar.xz".

(** The resolver as a whole: from the index document to the download URL. *)
Definition resolve (data : string) : option string :=
  downloadUrl <$> latestBuild data.

(* ===================================================================== *)
(** ** The update script                                                  *)
(* ===================================================================== *)

Definition stop_cmd : string := "sudo systemctl stop fivem".
Definition start_cmd : string := "sudo systemctl start fivem".
Definition alpinePath : string := path_join SERVER_DIR "alpine".
Definition runShPath : string := path_join SERVER_DIR "run.sh".
Definition downloadPath : string := path_join SERVER_DIR "fx.tar.xz".
Definition tar_cmd : string :=
  "sudo tar -xJf " +:+ downloadPath +:+ " -C " +:+ SERVER_DIR.
Definition chown_cmd : string :=
  "sudo chown -R " +:+ FIVEM_USER +:+ ":" +:+ FIVEM_USER +:+ " " +:+ SERVER_DIR.

Definition recovery_msg : string :=
  "Failed to download or extract new FXServer build. Restarting server with old version.".

(** Lines 22-31: a failing command is reported and ends the process at once. *)
Definition run (E : Env) (command : string) : M unit :=
  ok <- execSync E command ;;
  if ok then ret tt
  else
    log Error (CommandFailed command) ;;
    log Error (CommandStdout command) ;;
    log Error (CommandStderr command) ;;
    process_exit 1.

(** Lines 45-48, step "2. Clean old files": the payload directory tree and the
    launcher entry point are removed when they exist. *)
Definition clearStalePayload (E : Env) : M unit :=
  a <- existsSync alpinePath ;;
  (if a then rmSync E alpinePath else ret tt) ;;
  r <- existsSync runShPath ;;
  (if r then unlinkSync E runShPath else ret tt).

(** Lines 52-73: the body of the [try] block. *)
Definition fetch_and_extract (E : Env) : M unit :=
  log Info (Text "Finding and downloading latest FXServer build...") ;;
  data <- axios_get E LATEST_URL ;;
  build <- match latestBuild data with
           | Some b => ret b
           | None => throw NullMatchError
           end ;;
  download E (downloadUrl build) downloadPath ;;
  log Info (Text "Download complete. Extracting...") ;;
  run E tar_cmd ;;
  unlinkSync E downloadPath.

(** Lines 75-80: the [catch] block. *)
Definition recover (E : Env) (e : JsError) : M unit :=
  log Error (Text recovery_msg) ;;
  log ConsoleError (Thrown e) ;;
  run E start_cmd ;;
  process_exit 1.

(** Lines 34-94: [async function main()]. *)
Definition main (E : Env) : M unit :=
  log Console (Text (String "010" "### FiveM Server NodeJS Auto-Update Script ###")) ;;
  startTime <- new_Date E ;;
  log Info (Started startTime) ;;
  log Info (Text "Stopping FiveM service...") ;;
  run E stop_cmd ;;
  log Info (Text "Removing old server files...") ;;
  clearStalePayload E ;;
  try_catch (fetch_and_extract E) (recover E) ;;
  log Info (Text "Setting ownership for new files...") ;;
  run E chown_cmd ;;
  log Info (Text "Starting FiveM service...") ;;
  run E start_cmd ;;
  endTime <- new_Date E ;;
  log Success (CompleteIn (endTime - startTime)) ;;
  log Console (Text "Check status with: sudo systemctl status fivem").

(** The result of one run of the script. *)
Record Outcome : Type := mkOutcome {
  exit_code : Z;
  final : World;
  trace : list Event;
  completed : bool;     (* did [main] run to its last line? *)
}.

(** Line 96: [main().catch(err => console.error(err))].  A rejection of [main]
    is printed and the process then ends on its own, with status 0, as it does
    when [main] completes. *)
Definition update (E : Env) (w : World) : Outcome :=
  match main E w with
  | (Ret _, w', t) => mkOutcome 0 w' t true
  | (Throw e, w', t) => mkOutcome 0 w' (t ++ [ELog ConsoleError (Thrown e)]) false
  | (Exit c, w', t) => mkOutcome c w' t false
  end.


(* ===================================================================== *)
(** ** Reading a trace                                                    *)
(* ===================================================================== *)

(** The two operations of the service controller. *)
Inductive ServiceCall : Type := Stop | Start.

#[global] Instance ServiceCall_eq_dec : EqDecision ServiceCall.
Proof. solve_decision. Defined.

Definition service_call (ev : Event) : option ServiceCall :=
  match ev with
  | EExec cmd _ =>
      if String.eqb cmd stop_cmd then Some Stop
      else if String.eqb cmd start_cmd then Some Start
      else None
  | _ => None
  end.

(** The calls made to the service controller, in order. *)
Definition service_calls (t : list Event) : list ServiceCall :=
  omap service_call t.

(** The stop command returned successfully. *)
Definition stop_done (ev : Event) : bool :=
  match ev with
  | EExec cmd true => String.eqb cmd stop_cmd
  | _ => false
  end.

(** The start command was issued (whether or not it succeeded). *)
Definition start_issued (ev : Event) : bool :=
  match ev with
  | EExec cmd _ => String.eqb cmd start_cmd
  | _ => false
  end.

(** May the service be running after the events [t], when it was [running]
    before them?  Only a stop command that returned rules it out; any start
    command issued afterwards allows it again. *)
Fixpoint may_run (running : bool) (t : list Event) : bool :=
  match t with
  | [] => running
  | ev :: t' =>
      may_run (if start_issued ev then true
               else if stop_done ev then false else running) t'
  end.

(** The steps that change the installed payload: removing the directory tree
    or the launcher, unpacking the archive, fixing ownership. *)
Definition changes_payload (ev : Event) : bool :=
  match ev with
  | ERmTree p _ => String.eqb p alpinePath
  | EUnlink p _ => String.eqb p runShPath
  | EExec cmd _ => String.eqb cmd tar_cmd || String.eqb cmd chown_cmd
  | _ => false
  end.

(** The streamed download ended otherwise than with the writer's 'finish'. *)
Definition fetch_failed (t : list Event) : bool :=
  existsb (λ ev, match ev with
                 | EStream _ _ (Finished _) => false
                 | EStream _ _ _ => true
                 | _ => false
                 end) t.

(** The build index was requested. *)
Definition index_requested (t : list Event) : bool :=
  existsb (λ ev, match ev with
                 | EGet url _ => String.eqb url LATEST_URL
                 | _ => false
                 end) t.

(** The index request rejects, or its body has no match for the pattern. *)
Definition resolution_fails (E : Env) : bool :=
  match http_get E LATEST_URL with
  | None => true
  | Some data => bool_decide (latestBuild data = None)
  end.

(** A removal of the old payload threw. *)
Definition clearing_threw (t : list Event) : bool :=
  existsb (λ ev, match ev with
                 | ERmTree p false => String.eqb p alpinePath
                 | EUnlink p false => String.eqb p runShPath
                 | _ => false
                 end) t.

(** The durations (in milliseconds) reported by the run. *)
Definition duration_reports (t : list Event) : list Z :=
  omap (λ ev, match ev with
              | ELog _ (CompleteIn ms) => Some ms
              | _ => None
              end) t.

(** Clock readings and service calls, in the order they happen. *)
Definition timeline (t : list Event) : list (Z + ServiceCall) :=
  omap (λ ev, match ev with
              | EClock t => Some (inl t)
              | _ => inr <$> service_call ev
              end) t.

(** [all_splits chk pre t]: [chk] holds at every position of [t], given the
    events before it ([pre] and what was passed) and the events after it. *)
Fixpoint all_splits (chk : list Event → Event → list Event → bool)
    (pre t : list Event) : bool :=
  match t with
  | [] => true
  | ev :: post => chk pre ev post && all_splits chk (pre ++ [ev]) post
  end.

(** The first occurrence of [ev] in [t], with what precedes and follows it. *)
Fixpoint split_at (ev : Event) (t : list Event) : option (list Event * list Event) :=
  match t with
  | [] => None
  | x :: t' =>
      if bool_decide (x = ev) then Some ([], t')
      else match split_at ev t' with
           | Some (pre, post) => Some (x :: pre, post)
           | None => None
           end
  end.

(** The ordering of stop, payload changes and start, checked at one position. *)
Definition ordered_here (pre : list Event) (ev : Event) (post : list Event) : bool :=
  (if changes_payload ev
   then negb (may_run true pre) && negb (may_run false pre) && existsb stop_done pre
   else true)
  &&
  (if start_issued ev
   then (bool_decide (EExec chown_cmd true ∈ pre)
         || bool_decide (ELog Error (Text recovery_msg) ∈ pre))
        && forallb (λ e, negb (changes_payload e)) post
   else true).

(** The archive is unlinked only when the extraction command has returned
    successfully before, checked at one position. *)
Definition unlink_after_extract (pre : list Event) (ev : Event) (post : list Event) : bool :=
  match ev with
  | EUnlink p _ =>
      if String.eqb p downloadPath then bool_decide (EExec tar_cmd true ∈ pre) else true
  | _ => true
  end.

(* ===================================================================== *)
(** ** Occurrences of the build pattern, and the wording of the spec      *)
(* ===================================================================== *)

(** [s] begins with an occurrence of the pattern: the prefix, then [run],
    at least 40 characters of the class, then the slash and the quote. *)
Definition occurs_here (s run post : list ascii) : Prop :=
  s = href_open ++ run ++ slash :: quote :: post
  ∧ (40 ≤ length run)%nat
  ∧ Forall (λ c, build_char c = true) run.

(** A lowercase hexadecimal digit. *)
Definition hex_char (c : ascii) : bool :=
  let n := nat_of_ascii c in
  ((48 <=? n) && (n <=? 57) || (97 <=? n) && (n <=? 102))%nat.

(** The build as the specification words it: a token of 40 or more lowercase
    hexadecimal digits followed by a slash. *)
Definition is_hex_build (b : string) : bool :=
  match rev (String.list_ascii_of_string b) with
  | c :: tok => Ascii.eqb c slash && (40 <=? length tok)%nat && forallb hex_char tok
  | [] => false
  end.

(** A hexadecimal token followed by a slash occurs somewhere in [s]. *)
Definition has_hex_token (s : list ascii) : Prop :=
  ∃ pre tok post, s = pre ++ tok ++ slash :: post
    ∧ (40 ≤ length tok)%nat ∧ Forall (λ c, hex_char c = true) tok.

(* ===================================================================== *)
(** ** Concrete runs                                                      *)
(* ===================================================================== *)

(** A build directory as the index lists them: build number, hyphen, hash. *)
Definition sample_build : string := "7290-a654bcc2adfa27c4e020fc915a1a6343c3b4f921".
Definition older_build : string := "7289-0f51a7e5e9a0f1a5ba84bb6b3f8a32a8beb6d9b2".

Definition anchor (target : string) : string :=
  "<a href=" +:+ String quote (target +:+ String quote ">build</a>").

(** An index document listing two builds, the newest first. *)
Definition sample_index : string :=
  anchor (sample_build +:+ "/") +:+ anchor (older_build +:+ "/").

(** Forty hexadecimal digits and a slash, outside any href attribute. *)
Definition bare_token : string := "a654bcc2adfa27c4e020fc915a1a6343c3b4f921/".

(** An environment in which every step succeeds; unpacking the archive
    creates the payload directory and the launcher. *)
Definition E_ok : Env := {|
  clock := λ n, 1000 + 2500 * Z.of_nat n;
  sh_ok := λ _, true;
  sh_fs := λ cmd m,
    if String.eqb cmd tar_cmd
    then <[runShPath := File "#!/bin/sh"]> (<[alpinePath := Dir]> m)
    else m;
  rm_throws := λ _, false;
  rm_residue := λ _ m, m;
  http_get := λ _, Some sample_index;
  http_stream := λ _, Finished "fx.tar.xz contents";
|}.

(** [E], except that the shell command [cmd] fails. *)
Definition failing (cmd : string) (E : Env) : Env := {|
  clock := clock E;
  sh_ok := λ c, if String.eqb c cmd then false else sh_ok E c;
  sh_fs := sh_fs E;
  rm_throws := rm_throws E;
  rm_residue := rm_residue E;
  http_get := http_get E;
  http_stream := http_stream E;
|}.

(** [E], except that removing [p] throws. *)
Definition unremovable (p : string) (E : Env) : Env := {|
  clock := clock E;
  sh_ok := sh_ok E;
  sh_fs := sh_fs E;
  rm_throws := λ q, if String.eqb q p then true else rm_throws E q;
  rm_residue := rm_residue E;
  http_get := http_get E;
  http_stream := http_stream E;
|}.

(** [E], except that the archive request is rejected (say, HTTP 500). *)
Definition unfetchable (E : Env) : Env := {|
  clock := clock E;
  sh_ok := sh_ok E;
  sh_fs := sh_fs E;
  rm_throws := rm_throws E;
  rm_residue := rm_residue E;
  http_get := http_get E;
  http_stream := λ _, Rejected;
|}.

(** [E], except that the streamed download ends as [r]. *)
Definition streaming (r : Download) (E : Env) : Env := {|
  clock := clock E;
  sh_ok := sh_ok E;
  sh_fs := sh_fs E;
  rm_throws := rm_throws E;
  rm_residue := rm_residue E;
  http_get := http_get E;
  http_stream := λ _, r;
|}.

(** [E], except that the index answers with [body]. *)
Definition with_index (body : option string) (E : Env) : Env := {|
  clock := clock E;
  sh_ok := sh_ok E;
  sh_fs := sh_fs E;
  rm_throws := rm_throws E;
  rm_residue := rm_residue E;
  http_get := λ _, body;
  http_stream := http_stream E;
|}.

(** A host with a previous payload installed. *)
Definition w_installed : World := {|
  fs := <[alpinePath := Dir]>
          (<[alpinePath +:+ "/opt/cfx-server/FXServer" := File "old"]>
             (<[runShPath := File "#!/bin/sh"]>
                (<[SERVER_DIR := Dir]> ∅)));
  reads := 0;
|}.

(** A fresh install: the server directory exists and is empty. *)
Definition w_fresh : World := {| fs := <[SERVER_DIR := Dir]> ∅; reads := 0 |}.

(* ===================================================================== *)
(** ** Further readings of a trace                                        *)
(* ===================================================================== *)

(** The shell command [cmd] was issued and failed. *)
Definition cmd_failed (cmd : string) (t : list Event) : bool :=
  existsb (λ ev, match ev with
                 | EExec c false => String.eqb c cmd
                 | _ => false
                 end) t.

(** The shell commands issued, in order. *)
Definition commands (t : list Event) : list string :=
  omap (λ ev, match ev with EExec c _ => Some c | _ => None end) t.

(** The URLs requested with [axios.get]. *)
Definition index_requests (t : list Event) : list string :=
  omap (λ ev, match ev with EGet url _ => Some url | _ => None end) t.

(** The streamed downloads: URL and destination. *)
Definition downloads (t : list Event) : list (string * string) :=
  omap (λ ev, match ev with EStream url p _ => Some (url, p) | _ => None end) t.

(** The event is a file system call of the script or a network request. *)
Definition reaches_outside (ev : Event) : bool :=
  match ev with
  | ERmTree _ _ | EUnlink _ _ | EGet _ _ | EOpenWrite _ | EStream _ _ _ => true
  | _ => false
  end.

(** The [catch] block of the update script announced the recovery. *)
Definition recovery_announced (t : list Event) : bool :=
  bool_decide (ELog Error (Text recovery_msg) ∈ t).

(** The download failed in a way the script hears of: the request was
    rejected, or the writer's 'error' reached the listener of line 68. *)
Definition fetch_error_heard (t : list Event) : bool :=
  existsb (λ ev, match ev with
                 | EStream _ _ Rejected | EStream _ _ (WriteFailed _) => true
                 | _ => false
                 end) t.

(** The download never settled. *)
Definition download_stalled (t : list Event) : bool :=
  existsb (λ ev, match ev with
                 | EStream _ _ (Stalled _) => true
                 | _ => false
                 end) t.

(** Unlinking the downloaded archive threw. *)
Definition archive_unlink_failed (t : list Event) : bool :=
  existsb (λ ev, match ev with
                 | EUnlink p false => String.eqb p downloadPath
                 | _ => false
                 end) t.

(* ===================================================================== *)
(** ** The deployment script                                              *)
(* ===================================================================== *)

Module Deploy.

Definition DATA_DIR : string := BASE_DIR +:+ "/server-data".

(** What the deployment script observes or does beyond the calls shared with
    the update script, which appear as [Base] events. *)
Inductive DEvent : Type :=
| Base (ev : Event)
| EWarn (msg : string)                           (* log.warn *)
| EStep (msg : string)                           (* log.step *)
| EGetuid (uid : Z)                              (* process.getuid() *)
| EMkdir (path : string) (ok : bool)             (* fs.mkdirSync(path, {recursive}) *)
| EReaddir (path : string) (len : option nat)    (* fs.readdirSync(path).length *)
| EWriteFile (path data : string) (ok : bool)    (* fs.writeFileSync(path, data) *)
| EChmod (path mode : string) (ok : bool)        (* fs.chmodSync(path, mode) *)
| EQuestion (query : string) (line : option string).  (* askQuestion(query) *)

#[global] Instance DEvent_eq_dec : EqDecision DEvent.
Proof. solve_decision. Defined.

(** The environment of a deployment: that of the shared calls, and more. *)
Record DeployEnv : Type := {
  base : Env;
  (** [process.getuid()] *)
  uid : Z;
  (** does the file system call [op] on [path] throw? *)
  call_throws : string → string → bool;
  (** the line the operator types at the prompt, [None] when the input ends
      without one *)
  answer : option string;
}.

Definition DM (A : Type) : Type := World → Res A * World * list DEvent.

Definition dret {A} (a : A) : DM A := λ w, (Ret a, w, []).

Definition dbind {A B} (m : DM A) (f : A → DM B) : DM B :=
  λ w,
    match m w with
    | (Ret a, w1, t1) =>
        match f a w1 with
        | (r, w2, t2) => (r, w2, t1 ++ t2)
        end
    | (Throw e, w1, t1) => (Throw e, w1, t1)
    | (Exit c, w1, t1) => (Exit c, w1, t1)
    end.

Definition dtry_catch {A} (m : DM A) (h : JsError → DM A) : DM A :=
  λ w,
    match m w with
    | (Throw e, w1, t1) =>
        match h e w1 with
        | (r, w2, t2) => (r, w2, t1 ++ t2)
        end
    | other => other
    end.

(** A computation of the shared calls, run inside the deployment script. *)
Definition lift {A} (m : M A) : DM A :=
  λ w, match m w with (r, w1, t) => (r, w1, map Base t) end.

Definition demit (ev : DEvent) : DM unit := λ w, (Ret tt, w, [ev]).

Declare Scope deploy_scope.
Delimit Scope deploy_scope with deploy.
Notation "x <- m ;; k" := (dbind m (λ x, k))
  (at level 100, m at next level, k at level 200, right associativity) : deploy_scope.
Notation "m ;; k" := (dbind m (λ _, k))
  (at level 100, k at level 200, right associativity) : deploy_scope.
Local Open Scope deploy_scope.

(** *** File system calls of the deployment script *)

(** The proper ancestors of an absolute path, outermost first. *)
Fixpoint ancestors_from (seen rest : string) : list string :=
  match rest with
  | EmptyString => []
  | String c r =>
      (if Ascii.eqb c slash && negb (String.eqb seen "") then [seen] else [])
      ++ ancestors_from (seen +:+ String c "") r
  end.

Definition ancestors (p : string) : list string := ancestors_from "" p.

(** Successful [fs.mkdirSync(p, { recursive: true })]: the directory and
    those of its ancestors that are missing are created. *)
Definition fs_mkdir_p (p : string) (m : FS) : FS :=
  foldr (λ d acc, match acc !! d with
                  | None => <[d := Dir]> acc
                  | Some _ => acc
                  end) m (ancestors p ++ [p]).

Fixpoint drop_prefix (p q : string) : option string :=
  match p, q with
  | EmptyString, _ => Some q
  | String a p', String b q' => if Ascii.eqb a b then drop_prefix p' q' else None
  | String _ _, EmptyString => None
  end.

Fixpoint has_slash (s : string) : bool :=
  match s with
  | EmptyString => false
  | String c r => Ascii.eqb c slash || has_slash r
  end.

(** [q] is an entry of the directory [dir]. *)
Definition entry_of (dir q : string) : bool :=
  match drop_prefix (dir +:+ "/") q with
  | Some name => negb (String.eqb name "") && negb (has_slash name)
  | None => false
  end.

(** [fs.readdirSync(dir)]: the paths of the entries of [dir]. *)
Definition fs_readdir (dir : string) (m : FS) : list string :=
  filter (λ q, entry_of dir q = true) (map fst (map_to_list m)).

(** [p] is a directory. *)
Definition fs_is_dir (p : string) (m : FS) : bool :=
  bool_decide (m !! p = Some Dir).

Arguments fs_mkdir_p : simpl never.
Arguments fs_readdir : simpl never.
Arguments fs_is_dir : simpl never.

Definition mkdirSync (E : DeployEnv) (p : string) : DM unit :=
  m <- lift get_fs ;;
  if call_throws E "mkdir" p then
    demit (EMkdir p false) ;; lift (throw (FsError p))
  else
    lift (set_fs (fs_mkdir_p p m)) ;; demit (EMkdir p true).

(** [fs.readdirSync(p).length]; the call throws when [p] is not a directory. *)
Definition readdir_length (E : DeployEnv) (p : string) : DM nat :=
  m <- lift get_fs ;;
  if fs_is_dir p m && negb (call_throws E "readdir" p) then
    demit (EReaddir p (Some (length (fs_readdir p m)))) ;;
    dret (length (fs_readdir p m))
  else
    demit (EReaddir p None) ;; lift (throw (FsError p)).

Definition writeFileSync (E : DeployEnv) (p data : string) : DM unit :=
  m <- lift get_fs ;;
  if call_throws E "writeFile" p then
    demit (EWriteFile p data false) ;; lift (throw (FsError p))
  else
    lift (set_fs (fs_write p data m)) ;; demit (EWriteFile p data true).

Definition chmodSync (E : DeployEnv) (p mode : string) : DM unit :=
  if call_throws E "chmod" p then
    demit (EChmod p mode false) ;; lift (throw (FsError p))
  else demit (EChmod p mode true).

(** Lines 40-49: the promise resolves in the callback of [rl.question], with
    the line the operator types; when the input ends without a line the
    callback is never called and the promise never settles. *)
Definition askQuestion (E : DeployEnv) (query : string) : DM string :=
  demit (EQuestion query (answer E)) ;;
  match answer E with
  | Some line => dret line
  | None => lift never_settles
  end.

(** [String.prototype.toLowerCase] on the letters A to Z. *)
Definition lower (c : ascii) : ascii :=
  let n := nat_of_ascii c in
  if ((65 <=? n) && (n <=? 90))%nat then ascii_of_nat (n + 32) else c.

Fixpoint toLowerCase (s : string) : string :=
  match s with
  | EmptyString => EmptyString
  | String c r => String (lower c) (toLowerCase r)
  end.

(** [process.getuid() === 0] *)
Definition is_root (u : Z) : bool := Z.eqb u 0.

Arguments toLowerCase : simpl never.
Arguments is_root : simpl never.

(** *** The script *)

Definition info (msg : string) : DM unit := lift (log Info (Text msg)).
Definition success (msg : string) : DM unit := lift (log Success (Text msg)).
Definition error (msg : string) : DM unit := lift (log Error (Text msg)).
Definition console_log (msg : string) : DM unit := lift (log Console (Text msg)).
Definition warn (msg : string) : DM unit := demit (EWarn msg).
Definition step (msg : string) : DM unit := demit (EStep msg).

(** Lines 26-38. *)
Definition run (E : DeployEnv) (command : string) (ignoreError : bool) : DM unit :=
  info ("Executing: " +:+ command) ;;
  ok <- lift (execSync (base E) command) ;;
  if ok then dret tt
  else if negb ignoreError then
    lift (log Error (CommandFailed command)) ;;
    lift (process_exit 1)
  else warn ("Command failed but was ignored: " +:+ command).

(** A word between double quotes. *)
Definition quoted (s : string) : string := String quote (s +:+ String quote "").

Definition nl : string := String "010" "".

(** Each line followed by a line feed. *)
Fixpoint unlines (ls : list string) : string :=
  match ls with
  | [] => ""
  | l :: ls' => l +:+ nl +:+ unlines ls'
  end.

Definition id_cmd : string := "id " +:+ quoted FIVEM_USER.
Definition useradd_cmd : string :=
  "useradd -r -m -d " +:+ quoted BASE_DIR +:+ " -s /bin/bash " +:+ quoted FIVEM_USER.
Definition downloadPath : string := path_join SERVER_DIR "fx.tar.xz".
Definition tar_cmd : string := "tar -xJf " +:+ downloadPath +:+ " -C " +:+ SERVER_DIR.
Definition clone_cmd : string :=
  "git clone https://github.com/citizenfx/cfx-server-data.git " +:+ DATA_DIR.
Definition chown_cmd : string :=
  "chown -R " +:+ FIVEM_USER +:+ ":" +:+ FIVEM_USER +:+ " " +:+ BASE_DIR.
Definition reload_cmd : string := "systemctl daemon-reload".
Definition enable_cmd : string := "systemctl enable fivem.service".
Definition allow_tcp_cmd : string := "ufw allow 30120/tcp".
Definition allow_udp_cmd : string := "ufw allow 30120/udp".
Definition ufw_enable_cmd : string := "ufw --force enable".
Definition ufw_status_cmd : string := "ufw status".

Definition serverCfgPath : string := path_join DATA_DIR "server.cfg".
Definition startScriptPath : string := path_join BASE_DIR "start.sh".
Definition servicePath : string := "/etc/systemd/system/fivem.service".

Definition serverCfgContent : string :=
  nl +:+ unlines [
    "# FiveM server.cfg - A basic configuration";
    "# Get a license key from https://keymaster.fivem.net";
    "sv_licenseKey " +:+ quoted "CHANGE_ME";
    "";
    "# Set your server's hostname";
    "sv_hostname " +:+ quoted "My Awesome FiveM Server (NodeJS Deployed)";
    "";
    "# Server endpoint configuration";
    "endpoint_add_tcp " +:+ quoted "0.0.0.0:30120";
    "endpoint_add_udp " +:+ quoted "0.0.0.0:30120";
    "";
    "# Add system admins (e.g., steam:xxxxxxxxxxxxxxxxx)";
    "add_ace group.admin command allow";
    "add_ace group.admin command.quit deny";
    "# add_principal identifier.steam:110000100000000 group.admin";
    "";
    "# Resources to start";
    "ensure mapmanager";
    "ensure chat";
    "ensure spawnmanager";
    "ensure sessionmanager";
    "ensure basic-gamemode";
    "ensure hardcap";
    "ensure rconlog"
  ].

Definition startShContent : string :=
  unlines [
    "#!/bin/bash";
    "cd " +:+ DATA_DIR +:+ " || exit";
    SERVER_DIR +:+ "/run.sh +exec server.cfg"
  ].

Definition serviceContent : string :=
  nl +:+ unlines [
    "[Unit]";
    "Description=FiveM Server";
    "After=network.target";
    "";
    "[Service]";
    "Type=simple";
    "User=" +:+ FIVEM_USER;
    "Group=" +:+ FIVEM_USER;
    "WorkingDirectory=" +:+ DATA_DIR;
    "ExecStart=" +:+ startScriptPath;
    "Restart=on-failure";
    "RestartSec=5s";
    "";
    "[Install]";
    "WantedBy=multi-user.target"
  ].

Definition not_root_msg : string :=
  "This script must be run as root. Please use 'sudo node deploy_fivem.js'.".
Definition install_failed_msg : string := "Failed to download or extract FXServer.".
Definition firewall_query : string :=
  "[ACTION] Enable the firewall (UFW)? This may disconnect your SSH session if port 22 is not allowed. (y/N): ".

(** Lines 55-59. *)
Definition check_root (E : DeployEnv) : DM unit :=
  demit (EGetuid (uid E)) ;;
  if negb (is_root (uid E)) then error not_root_msg ;; lift (process_exit 1)
  else dret tt.

(** Lines 62-69. *)
Definition create_user (E : DeployEnv) : DM unit :=
  step "Step 1: Creating dedicated user" ;;
  ok <- lift (execSync (base E) id_cmd) ;;
  if ok then warn ("User '" +:+ FIVEM_USER +:+ "' already exists. Skipping creation.")
  else
    run E useradd_cmd false ;;
    success ("User '" +:+ FIVEM_USER +:+ "' created.").

(** Lines 72-75. *)
Definition create_directories (E : DeployEnv) : DM unit :=
  step "Step 2: Creating directory structure" ;;
  s <- lift (existsSync SERVER_DIR) ;;
  (if s then dret tt else mkdirSync E SERVER_DIR) ;;
  d <- lift (existsSync DATA_DIR) ;;
  (if d then dret tt else mkdirSync E DATA_DIR) ;;
  success ("Directories created: " +:+ SERVER_DIR +:+ " and " +:+ DATA_DIR).

(** Lines 80-103: the body of the [try] block. *)
Definition fetch_and_extract (E : DeployEnv) : DM unit :=
  info "Finding latest FXServer build..." ;;
  data <- lift (axios_get (base E) LATEST_URL) ;;
  build <- match latestBuild data with
           | Some b => dret b
           | None => lift (throw NullMatchError)
           end ;;
  info ("Downloading from " +:+ downloadUrl build) ;;
  lift (download (base E) (downloadUrl build) downloadPath) ;;
  success "Download complete. Extracting..." ;;
  run E tar_cmd false ;;
  lift (unlinkSync (base E) downloadPath) ;;
  success "FXServer extracted.".

(** Lines 105-109: the [catch] block. *)
Definition abandon (e : JsError) : DM unit :=
  error install_failed_msg ;;
  lift (log ConsoleError (Thrown e)) ;;
  lift (process_exit 1).

(** Lines 112-118. *)
Definition clone_data (E : DeployEnv) : DM unit :=
  step "Step 4: Cloning cfx-server-data" ;;
  n <- readdir_length E DATA_DIR ;;
  if (n =? 0)%nat then
    run E clone_cmd false ;; success "cfx-server-data cloned."
  else warn "server-data directory is not empty. Skipping clone.".

(** Lines 121-157. *)
Definition write_configuration (E : DeployEnv) : DM unit :=
  step "Step 5: Creating configuration files" ;;
  writeFileSync E serverCfgPath serverCfgContent ;;
  writeFileSync E startScriptPath startShContent ;;
  chmodSync E startScriptPath "755" ;;
  success "server.cfg and start.sh created.".

(** Lines 160-162. *)
Definition set_ownership (E : DeployEnv) : DM unit :=
  step "Step 6: Setting ownership" ;;
  run E chown_cmd false ;;
  success ("Ownership of " +:+ BASE_DIR +:+ " set to " +:+ FIVEM_USER +:+ ".").

(** Lines 165-186. *)
Definition install_service (E : DeployEnv) : DM unit :=
  step "Step 7: Creating systemd service" ;;
  writeFileSync E servicePath serviceContent ;;
  run E reload_cmd false ;;
  run E enable_cmd false ;;
  success "Systemd service 'fivem.service' created and enabled.".

(** Lines 189-199. *)
Definition configure_firewall (E : DeployEnv) : DM unit :=
  step "Step 8: Configuring Firewall (UFW)" ;;
  run E allow_tcp_cmd false ;;
  run E allow_udp_cmd false ;;
  a <- askQuestion E firewall_query ;;
  (if String.eqb (toLowerCase a) "y" then
     run E ufw_enable_cmd false ;; success "Firewall enabled."
   else
     warn "Firewall not enabled. Please configure it manually with 'sudo ufw enable'.") ;;
  run E ufw_status_cmd false.

Definition rule : string := "-----------------------------------------------------".

(** Lines 203-213. *)
Definition final_instructions : DM unit :=
  console_log (nl +:+ rule) ;;
  console_log ("### FiveM Server Deployment Complete! ###" +:+ nl) ;;
  warn "!!! IMPORTANT NEXT STEPS !!!" ;;
  console_log ("1. Edit your server configuration: sudo nano " +:+ DATA_DIR +:+ "/server.cfg") ;;
  console_log "2. GET A LICENSE KEY from https://keymaster.fivem.net and add it to server.cfg." ;;
  console_log (nl +:+ "To manage your server, use these commands:") ;;
  console_log " - Start server:   sudo systemctl start fivem" ;;
  console_log " - Stop server:    sudo systemctl stop fivem" ;;
  console_log " - View status:    sudo systemctl status fivem" ;;
  console_log " - View live log:  sudo journalctl -fu fivem.service" ;;
  console_log (nl +:+ rule).

(** Lines 52-214: [async function main()]. *)
Definition main (E : DeployEnv) : DM unit :=
  console_log "### FiveM Server NodeJS Deployment Script ###" ;;
  check_root E ;;
  create_user E ;;
  create_directories E ;;
  step "Step 3: Downloading and installing FXServer" ;;
  dtry_catch (fetch_and_extract E) abandon ;;
  clone_data E ;;
  write_configuration E ;;
  set_ownership E ;;
  install_service E ;;
  configure_firewall E ;;
  final_instructions.

(** The result of one run of the deployment script. *)
Record DOutcome : Type := mkDOutcome {
  exit_code : Z;
  final : World;
  trace : list DEvent;
  completed : bool;
}.

(** Line 216: [main().catch(err => log.error(err))]. *)
Definition deploy (E : DeployEnv) (w : World) : DOutcome :=
  match main E w with
  | (Ret _, w', t) => mkDOutcome 0 w' t true
  | (Throw e, w', t) => mkDOutcome 0 w' (t ++ [Base (ELog Error (Thrown e))]) false
  | (Exit c, w', t) => mkDOutcome c w' t false
  end.

(** *** Reading a deployment trace *)

(** The shell commands issued, in order, with whether they succeeded. *)
Definition executed (t : list DEvent) : list (string * bool) :=
  omap (λ ev, match ev with Base (EExec c ok) => Some (c, ok) | _ => None end) t.

Definition commands (t : list DEvent) : list string := map fst (executed t).

(** A file system call made by the script outside the [try] block threw. *)
Definition call_threw (t : list DEvent) : bool :=
  existsb (λ ev, match ev with
                 | EMkdir _ false | EReaddir _ None
                 | EWriteFile _ _ false | EChmod _ _ false => true
                 | _ => false
                 end) t.

(** The files written with [fs.writeFileSync], in order. *)
Definition written (t : list DEvent) : list string :=
  omap (λ ev, match ev with EWriteFile p _ true => Some p | _ => None end) t.

(** Every command the script can issue. *)
Definition known_commands : list string :=
  [id_cmd; useradd_cmd; tar_cmd; clone_cmd; chown_cmd; reload_cmd; enable_cmd;
   allow_tcp_cmd; allow_udp_cmd; ufw_enable_cmd; ufw_status_cmd].

(** The command [c] was issued and succeeded. *)
Definition ran_ok (c : string) (t : list DEvent) : bool :=
  bool_decide ((c, true) ∈ executed t).

(** The command [c] was issued. *)
Definition issued (c : string) (t : list DEvent) : bool :=
  bool_decide (c ∈ commands t).

(** The operator was asked about the firewall. *)
Definition question_asked (t : list DEvent) : bool :=
  existsb (λ ev, match ev with EQuestion _ _ => true | _ => false end) t.

(** The directory listings made: path, and length unless the call threw. *)
Definition listings (t : list DEvent) : list (string * option nat) :=
  omap (λ ev, match ev with EReaddir p len => Some (p, len) | _ => None end) t.

(** The operator typed y or Y. *)
Definition answered_yes (E : DeployEnv) : bool :=
  match answer E with
  | Some line => String.eqb (toLowerCase line) "y"
  | None => false
  end.

(** The events shared with the update script. *)
Definition shared (t : list DEvent) : list Event :=
  omap (λ ev, match ev with Base e => Some e | _ => None end) t.

(** A promise the script awaits never settled: the download, or the prompt. *)
Definition unsettled (t : list DEvent) : bool :=
  download_stalled (shared t)
  || existsb (λ ev, match ev with EQuestion _ None => true | _ => false end) t.

(** The extraction command was issued and failed. *)
Definition tar_failed (t : list DEvent) : bool :=
  issued tar_cmd t && negb (ran_ok tar_cmd t).

(** The [catch] block of the deployment script ran. *)
Definition gave_up (t : list DEvent) : bool :=
  bool_decide (Base (ELog Error (Text install_failed_msg)) ∈ t).

(** The event is anything but a message, the uid query or the exit. *)
Definition acts (ev : DEvent) : bool :=
  match ev with
  | Base (ELog _ _) | Base (EExit _) | EWarn _ | EStep _ | EGetuid _ => false
  | _ => true
  end.

(** [chk] holds at every position of [l], given what precedes (after [pre])
    and what follows. *)
Fixpoint all_positions {A} (chk : list A → A → list A → bool)
    (pre l : list A) : bool :=
  match l with
  | [] => true
  | x :: post => chk pre x post && all_positions chk (pre ++ [x]) post
  end.

(** What must have happened before an event of the deployment. *)
Definition prepared (pre : list DEvent) (ev : DEvent) (post : list DEvent) : bool :=
  match ev with
  | Base (EExec c _) =>
      if String.eqb c useradd_cmd then bool_decide ((id_cmd, false) ∈ executed pre)
      else if String.eqb c clone_cmd then bool_decide (EReaddir DATA_DIR (Some 0%nat) ∈ pre)
      else if String.eqb c reload_cmd
           then ran_ok chown_cmd pre && bool_decide (servicePath ∈ written pre)
      else if String.eqb c enable_cmd then ran_ok reload_cmd pre
      else if String.eqb c ufw_enable_cmd
           then ran_ok allow_tcp_cmd pre && ran_ok allow_udp_cmd pre && question_asked pre
      else true
  | EWriteFile _ _ _ =>
      ran_ok tar_cmd pre
      && bool_decide (Base (EUnlink downloadPath true) ∈ pre)
  | _ => true
  end.

(** A command that failed is the identity probe, or the last one issued. *)
Definition failure_is_last (code : Z) (pre : list (string * bool))
    (x : string * bool) (post : list (string * bool)) : bool :=
  match x with
  | (c, false) =>
      String.eqb c id_cmd || (bool_decide (post = []) && Z.eqb code 1)
  | (_, true) => true
  end.

(** What holds of every run, read off its exit status and its trace; [root]
    and [yes] stand for the two tests made on the environment. *)
Record Facts : Type := {
  exit_status : bool;      (* 0 when complete, a call threw or a promise hangs, else 1 *)
  known_once : bool;       (* only known commands, none twice *)
  in_order : bool;         (* [prepared] at every position *)
  failures_last : bool;    (* [failure_is_last] at every position *)
  user_created : bool;     (* useradd exactly when the probe failed *)
  data_cloned : bool;      (* one listing at most; clone exactly when it was empty *)
  firewall : bool;         (* enable exactly when asked and answered yes *)
  not_root : bool;         (* without root nothing is done *)
  abandoned : bool;         (* after a failed installation nothing is written *)
  all_done : bool;         (* a complete run did every step *)
}.

Definition facts (root yes : bool) (code : Z) (done : bool) (t : list DEvent) : Facts := {|
  exit_status := Z.eqb code (if done || call_threw t || unsettled t then 0 else 1);
  known_once :=
    forallb (λ c, bool_decide (c ∈ known_commands)) (commands t)
    && bool_decide (NoDup (commands t));
  in_order := all_positions prepared [] t;
  failures_last := all_positions (failure_is_last code) [] (executed t);
  user_created :=
    Bool.eqb (issued useradd_cmd t) (bool_decide ((id_cmd, false) ∈ executed t));
  data_cloned :=
    match listings t with
    | [] => negb (issued clone_cmd t)
    | [(p, len)] =>
        String.eqb p DATA_DIR
        && Bool.eqb (issued clone_cmd t) (bool_decide (len = Some 0%nat))
    | _ => false
    end;
  firewall :=
    Bool.eqb (issued ufw_enable_cmd t) (question_asked t && yes);
  not_root :=
    root || (Z.eqb code 1 && forallb (λ ev, negb (acts ev)) t);
  abandoned :=
    negb (gave_up t || tar_failed t || fetch_failed (shared t))
    || ((unsettled t || Z.eqb code 1)
        && bool_decide (written t = [])
        && forallb (λ c, bool_decide (c ∈ [id_cmd; useradd_cmd; tar_cmd])) (commands t));
  all_done :=
    negb done
    || (forallb (λ c, ran_ok c t)
          [tar_cmd; chown_cmd; reload_cmd; enable_cmd;
           allow_tcp_cmd; allow_udp_cmd; ufw_status_cmd]
        && bool_decide (written t = [serverCfgPath; startScriptPath; servicePath])
        && question_asked t);
|}.

Definition all_true (f : Facts) : bool :=
  exit_status f && known_once f && in_order f && failures_last f
  && user_created f && data_cloned f && firewall f && not_root f
  && abandoned f && all_done f.

(** The shell commands [cs], run one after the other on [m]. *)
Definition after_commands (E : DeployEnv) (cs : list string) (m : FS) : FS :=
  foldl (λ acc c, sh_fs (base E) c acc) m cs.

(** The shared calls on a host where every step succeeds; unpacking the
    archive creates the payload directory and the launcher. *)
Definition E_host : Env := {|
  clock := clock E_ok;
  sh_ok := λ _, true;
  sh_fs := λ cmd m,
    if String.eqb cmd tar_cmd
    then <[runShPath := File "#!/bin/sh"]> (<[alpinePath := Dir]> m)
    else m;
  rm_throws := λ _, false;
  rm_residue := λ _ m, m;
  http_get := λ _, Some sample_index;
  http_stream := λ _, Finished "fx.tar.xz contents";
|}.

(** A deployment environment in which every step succeeds, run by root, the
    operator declining the firewall. *)
Definition D_ok : DeployEnv := {|
  base := E_host;
  uid := 0;
  call_throws := λ _ _, false;
  answer := Some "N";
|}.

(** [D], run by the user with id [u]. *)
Definition as_user (u : Z) (D : DeployEnv) : DeployEnv :=
  {| base := base D; uid := u; call_throws := call_throws D; answer := answer D |}.


(** [D], the input ending before the operator types anything. *)
Definition unanswered (D : DeployEnv) : DeployEnv :=
  {| base := base D; uid := uid D; call_throws := call_throws D; answer := None |}.

(** [D], with the shared calls answered by [E]. *)
Definition over (E : Env) (D : DeployEnv) : DeployEnv :=
  {| base := E; uid := uid D; call_throws := call_throws D; answer := answer D |}.

(** A bare host. *)
Definition w_bare : World := {| fs := <["/home" := Dir]> ∅; reads := 0 |}.

End Deploy.

(* ===================================================================== *)
(** ** Running the script symbolically                                    *)
(* ===================================================================== *)

(** The term on which evaluation of a nest of matches is stuck. *)
Ltac stuck_on t :=
  lazymatch t with
  | match ?x with _ => _ end => stuck_on x
  | (match ?x with _ => _ end) _ => stuck_on x
  | negb ?x => stuck_on x
  | andb ?x _ => stuck_on x
  | Nat.eqb ?x _ => stuck_on x
  | _ => t
  end.

Ltac unfold_script H :=
  unfold update, main, clearStalePayload, try_catch, fetch_and_extract, recover,
    run, execSync, existsSync, rmSync, unlinkSync, axios_get, download, log,
    emit, process_exit, uncaught_error, never_settles, new_Date, bind, ret,
    throw, get_fs, set_fs in H;
  cbn in H.

(** Follow the script in program order, splitting on what the environment
    answers at each step. *)
Ltac explore H :=
  lazymatch type of H with
  | ?lhs = _ =>
      let s := stuck_on lhs in
      lazymatch s with
      | sh_ok _ _ => destruct s eqn:?; cbn in H; explore H
      | rm_throws _ _ => destruct s eqn:?; cbn in H; explore H
      | http_get _ _ => destruct s eqn:?; cbn in H; explore H
      | http_stream _ _ => destruct s eqn:?; cbn in H; explore H
      | latestBuild _ => destruct s eqn:?; cbn in H; explore H
      | fs_exists _ _ => destruct s eqn:?; cbn in H; explore H
      | _ => idtac
      end
  end.

(** All the ways a run of [update E w] can go. *)
Ltac run_cases E w :=
  let H := fresh "Hrun" in
  destruct (update E w) as [? ? ? ?] eqn:H;
  unfold_script H; explore H;
  injection H as <- <- <- <-;
  cbn [exit_code final trace completed].

(** The same for the deployment script. *)
Ltac dunfold_script H :=
  unfold Deploy.deploy, Deploy.main, Deploy.check_root, Deploy.create_user,
    Deploy.create_directories, Deploy.fetch_and_extract, Deploy.abandon,
    Deploy.clone_data, Deploy.write_configuration, Deploy.set_ownership,
    Deploy.install_service, Deploy.configure_firewall, Deploy.final_instructions,
    Deploy.run, Deploy.mkdirSync, Deploy.readdir_length, Deploy.writeFileSync,
    Deploy.chmodSync, Deploy.askQuestion, Deploy.info, Deploy.success,
    Deploy.error, Deploy.console_log, Deploy.warn, Deploy.step, Deploy.demit,
    Deploy.lift, Deploy.dtry_catch, Deploy.dbind, Deploy.dret,
    execSync, existsSync, unlinkSync, axios_get, download, log,
    emit, process_exit, uncaught_error, never_settles, bind, ret, throw,
    get_fs, set_fs in H;
  cbn in H.

Ltac dexplore H :=
  lazymatch type of H with
  | ?lhs = _ =>
      let s := stuck_on lhs in
      lazymatch s with
      | sh_ok _ _ => destruct s eqn:?; cbn in H; dexplore H
      | rm_throws _ _ => destruct s eqn:?; cbn in H; dexplore H
      | http_get _ _ => destruct s eqn:?; cbn in H; dexplore H
      | http_stream _ _ => destruct s eqn:?; cbn in H; dexplore H
      | latestBuild _ => destruct s eqn:?; cbn in H; dexplore H
      | fs_exists _ _ => destruct s eqn:?; cbn in H; dexplore H
      | Deploy.call_throws _ _ _ => destruct s eqn:?; cbn in H; dexplore H
      | Deploy.answer _ => destruct s eqn:?; cbn in H; dexplore H
      | Deploy.is_root _ => destruct s eqn:?; cbn in H; dexplore H
      | Deploy.fs_is_dir _ _ => destruct s eqn:?; cbn in H; dexplore H
      | length (Deploy.fs_readdir _ _) => destruct s eqn:?; cbn in H; dexplore H
      | String.eqb _ _ => destruct s eqn:?; cbn in H; dexplore H
      | _ => idtac
      end
  end.

(** All the ways a run of [Deploy.deploy E w] can go. *)
Ltac deploy_cases E w :=
  let H := fresh "Hrun" in
  destruct (Deploy.deploy E w) as [? ? ? ?] eqn:H;
  dunfold_script H; dexplore H;
  injection H as <- <- <- <-;
  cbn [Deploy.exit_code Deploy.final Deploy.trace Deploy.completed].

(* ===================================================================== *)
(** ** The resolver finds the leftmost occurrence of the pattern          *)
(* ===================================================================== *)

Section Resolver.

Implicit Types s run post pre g : list ascii.

Lemma strip_prefix_spec p s r : strip_prefix p s = Some r ↔ s = p ++ r.
Proof.
  revert s. induction p as [|a p IH]; intros s; simpl.
  - split; congruence.
  - destruct s as [|b s]; [split; discriminate|].
    destruct (Ascii.eqb_spec a b) as [->|Hne].
    + rewrite IH. split; congruence.
    + split; [discriminate | congruence].
Qed.

Lemma span_class_spec s r t :
  span_class s = (r, t) →
  s = r ++ t ∧ Forall (λ c, build_char c = true) r
  ∧ match t with [] => True | c :: _ => build_char c = false end.
Proof.
  revert r t. induction s as [|c s IH]; intros r t; simpl.
  - intros [= <- <-]. auto.
  - destruct (build_char c) eqn:Hc.
    + destruct (span_class s) as [r' t'] eqn:Hs. intros [= <- <-].
      destruct (IH _ _ eq_refl) as (-> & Hall & Hhd). auto.
    + intros [= <- <-]. simpl. auto.
Qed.

(** The greedy run is determined by the text: it stops at the first
    character outside the class. *)
Lemma span_class_app run c rest :
  Forall (λ c, build_char c = true) run → build_char c = false →
  span_class (run ++ c :: rest) = (run, c :: rest).
Proof.
  intros Hall Hc. induction Hall as [|x run Hx _ IH]; simpl.
  - by rewrite Hc.
  - by rewrite Hx, IH.
Qed.

Lemma match_here_spec s g :
  match_here s = Some g ↔ ∃ run post, occurs_here s run post ∧ g = run ++ [slash].
Proof.
  unfold match_here, occurs_here. split.
  - destruct (strip_prefix href_open s) as [s1|] eqn:Hp; [|discriminate].
    apply strip_prefix_spec in Hp as ->.
    destruct (span_class s1) as [run s2] eqn:Hs.
    apply span_class_spec in Hs as (-> & Hall & _).
    destruct (Nat.leb_spec 40 (length run)); [|discriminate].
    destruct s2 as [|c1 [|c2 post]]; try discriminate.
    destruct (Ascii.eqb_spec c1 slash) as [->|]; [|discriminate].
    destruct (Ascii.eqb_spec c2 quote) as [->|]; [|discriminate].
    intros [= <-]. eauto 10.
  - intros (run & post & (-> & Hlen & Hall) & ->).
    assert (strip_prefix href_open (href_open ++ run ++ slash :: quote :: post)
            = Some (run ++ slash :: quote :: post)) as -> by by apply strip_prefix_spec.
    rewrite span_class_app by done.
    destruct (Nat.leb_spec 40 (length run)); [|lia].
    by rewrite !Ascii.eqb_refl.
Qed.

(** [regex_exec] returns the match at the leftmost position that has one. *)
Lemma regex_exec_some s g :
  regex_exec s = Some g →
  ∃ pre rest, s = pre ++ rest ∧ match_here rest = Some g
    ∧ ∀ pre' rest', s = pre' ++ rest' → (length pre' < length pre)%nat →
                    match_here rest' = None.
Proof.
  induction s as [|c s IH]; simpl.
  - discriminate.
  - destruct (match_here (c :: s)) eqn:Hm.
    + intros [= ->]. exists [], (c :: s). repeat split; auto. simpl. lia.
    + intros (pre & rest & -> & Hr & Hleft)%IH.
      exists (c :: pre), rest. repeat split; auto.
      intros [|c' pre'] rest'; simpl.
      * intros <- _. done.
      * intros [= <- Heq] Hlt. apply (Hleft pre'); [done | lia].
Qed.

Lemma regex_exec_none s :
  regex_exec s = None → ∀ pre rest, s = pre ++ rest → match_here rest = None.
Proof.
  induction s as [|c s IH]; simpl.
  - intros _ [|??] rest; simpl; [by intros <- | discriminate].
  - destruct (match_here (c :: s)) eqn:Hm; [discriminate|].
    intros Hs [|c' pre] rest; simpl.
    + by intros <-.
    + intros [= <- ->]. by apply (IH Hs pre).
Qed.

End Resolver.

(* ===================================================================== *)
(** ** Traces: positions, splits and the service state                    *)
(* ===================================================================== *)

Section Traces.

Implicit Types t pre post : list Event.

Lemma all_splits_sound chk t0 t :
  all_splits chk t0 t = true →
  ∀ pre ev post, t = pre ++ ev :: post → chk (t0 ++ pre) ev post = true.
Proof.
  revert t0. induction t as [|x t IH]; intros t0 Hall pre ev post Heq.
  - by destruct pre.
  - simpl in Hall. apply andb_true_iff in Hall as [Hx Hrest].
    destruct pre as [|y pre]; simplify_eq/=.
    + by rewrite app_nil_r.
    + specialize (IH _ Hrest pre ev post eq_refl).
      by rewrite <-app_assoc in IH.
Qed.

Lemma split_at_sound ev t pre post :
  split_at ev t = Some (pre, post) → t = pre ++ ev :: post.
Proof.
  revert pre. induction t as [|x t IH]; intros pre; simpl; [discriminate|].
  case_bool_decide as Hx.
  - intros [= <- <-]. by subst.
  - destruct (split_at ev t) as [[pre' post']|]; [|discriminate].
    intros [= <- <-]. by rewrite (IH pre' eq_refl).
Qed.

Lemma stop_done_inv ev : stop_done ev = true → ev = EExec stop_cmd true.
Proof.
  destruct ev as [| |cmd [|]| | | | | |]; simpl; try discriminate.
  by intros ->%String.eqb_eq.
Qed.

Lemma start_issued_inv ev : start_issued ev = true → ∃ ok, ev = EExec start_cmd ok.
Proof.
  destruct ev as [| |cmd ok| | | | | |]; simpl; try discriminate.
  intros ->%String.eqb_eq. eauto.
Qed.

(** What [ordered_here] says, position by position. *)
Lemma ordered_here_sound pre ev post :
  ordered_here pre ev post = true →
  (changes_payload ev = true →
     In (EExec stop_cmd true) pre ∧ ∀ running, may_run running pre = false)
  ∧ (start_issued ev = true →
     (In (EExec chown_cmd true) pre ∨ In (ELog Error (Text recovery_msg)) pre)
     ∧ Forall (λ e, changes_payload e = false) post).
Proof.
  unfold ordered_here. intros [Hc Hs]%andb_true_iff. split.
  - intros Hev. rewrite Hev in Hc.
    apply andb_true_iff in Hc as [[Ht Hf]%andb_true_iff Hstop].
    apply negb_true_iff in Ht, Hf. split.
    + apply existsb_exists in Hstop as (x & Hin & ->%stop_done_inv). done.
    + by intros [|].
  - intros Hev. rewrite Hev in Hs.
    apply andb_true_iff in Hs as [Hbefore Hafter]. split.
    + apply orb_true_iff in Hbefore as [H|H]; apply bool_decide_eq_true in H;
        apply list_elem_of_In in H; auto.
    + apply Forall_forall. intros x Hx.
      rewrite forallb_forall in Hafter.
      apply negb_true_iff, Hafter. by apply list_elem_of_In.
Qed.

End Traces.

(* ===================================================================== *)
(** ** The update flow                                                    *)
(* ===================================================================== *)

(** C4. A run in which [main] reaches its last line has called the service
    controller exactly twice: stop, then start. *)
Theorem successful_run_calls_stop_then_start (E : Env) (w : World) :
  completed (update E w) = true →
  service_calls (trace (update E w)) = [Stop; Start].
Proof.
  run_cases E w; intros Hdone; try discriminate Hdone; reflexivity.
Qed.

Lemma successful_run_calls_stop_then_start_witness :
  completed (update E_ok w_installed) = true
  ∧ service_calls (trace (update E_ok w_installed)) = [Stop; Start].
Proof.
  split; [vm_compute; reflexivity|].
  apply (successful_run_calls_stop_then_start E_ok w_installed).
  vm_compute; reflexivity.
Defined.

(** The class of the pattern on a few characters: the hyphen belongs to it,
    letters beyond f and capitals do not, nor do the slash and the quote. *)
Example build_char_samples :
  map build_char ["0"; "9"; "-"; "a"; "f"; "g"; "A"; slash; quote]%char
  = [true; true; true; true; true; false; false; false; false].
Proof. reflexivity. Qed.

(** Splitting a concrete trace at the announcement of the recovery. *)
Ltac split_at_recovery :=
  eexists _, _; split;
  [ apply split_at_sound; vm_compute; reflexivity | ].

(** C3. Two runs in which the download fails and the recovery never
    happens.  When the writer cannot open the archive file its 'error' is
    emitted before line 68 attaches a listener: the process dies with
    status 1, the [catch] block does not run and the start command is never
    issued.  When the response is cut, neither 'finish' nor 'error' comes:
    the promise of lines 66-69 never settles and the process ends with
    status 0, again without the start command. *)
Theorem fetch_failure_can_skip_recovery :
  let dead := update (streaming OpenFailed E_ok) w_installed in
  let cut := update (streaming (Stalled "fx.tar") E_ok) w_installed in
  (fetch_failed (trace dead) = true
   ∧ service_calls (trace dead) = [Stop]
   ∧ recovery_announced (trace dead) = false
   ∧ exit_code dead = 1)
  ∧ (fetch_failed (trace cut) = true
     ∧ service_calls (trace cut) = [Stop]
     ∧ recovery_announced (trace cut) = false
     ∧ exit_code cut = 0).
Proof. cbv zeta. repeat split; vm_compute; reflexivity. Qed.

(** X24. When the download fails in a way the script hears of (the request
    is rejected, or the writer's 'error' reaches the listener of line 68),
    the recovery is announced, the start command is issued exactly once,
    after the announcement, and the process exits with status 1, whatever
    the start command returns. *)
Theorem heard_fetch_failure_restarts_once (E : Env) (w : World) :
  fetch_error_heard (trace (update E w)) = true →
  exit_code (update E w) = 1
  ∧ ∃ pre post,
      trace (update E w) = pre ++ ELog Error (Text recovery_msg) :: post
      ∧ service_calls pre = [Stop]
      ∧ service_calls post = [Start].
Proof.
  run_cases E w; intros Hfail; vm_compute in Hfail; try discriminate Hfail.
  all: split; [reflexivity|]; split_at_recovery; split; reflexivity.
Qed.

Lemma heard_fetch_failure_restarts_once_witness :
  fetch_error_heard (trace (update (unfetchable E_ok) w_installed)) = true
  ∧ exit_code (update (unfetchable E_ok) w_installed) = 1
  ∧ ∃ pre post,
      trace (update (unfetchable E_ok) w_installed)
        = pre ++ ELog Error (Text recovery_msg) :: post
      ∧ service_calls pre = [Stop]
      ∧ service_calls post = [Start].
Proof.
  split; [vm_compute; reflexivity|].
  apply (heard_fetch_failure_restarts_once (unfetchable E_ok) w_installed).
  vm_compute; reflexivity.
Defined.

(** C10. When the index was requested and resolution fails (the request
    rejects, or the body has no match), the run takes the recovery path of a
    failed download: no download is started, the start command is issued
    exactly once after the announcement, and the process exits with status 1. *)
Theorem resolution_failure_takes_recovery_path (E : Env) (w : World) :
  index_requested (trace (update E w)) = true →
  resolution_fails E = true →
  exit_code (update E w) = 1
  ∧ (∀ url path r, ¬ In (EStream url path r) (trace (update E w)))
  ∧ ∃ pre post,
      trace (update E w) = pre ++ ELog Error (Text recovery_msg) :: post
      ∧ service_calls pre = [Stop]
      ∧ service_calls post = [Start].
Proof.
  unfold resolution_fails.
  run_cases E w; intros Hreq Hres; vm_compute in Hreq; try discriminate Hreq.
  all: repeat match goal with
         | H : http_get _ _ = _ |- _ => rewrite H in Hres
         | H : latestBuild _ = _ |- _ => rewrite H in Hres
         end; try discriminate Hres.
  all: split; [reflexivity|]; split.
  all: try (intros url path r Hin; simpl in Hin; intuition discriminate).
  all: split_at_recovery; split; reflexivity.
Qed.

Lemma resolution_failure_takes_recovery_path_witness :
  index_requested (trace (update (with_index (Some bare_token) E_ok) w_installed)) = true
  ∧ resolution_fails (with_index (Some bare_token) E_ok) = true
  ∧ exit_code (update (with_index (Some bare_token) E_ok) w_installed) = 1.
Proof.
  split; [vm_compute; reflexivity|]. split; [vm_compute; reflexivity|].
  apply (resolution_failure_takes_recovery_path
           (with_index (Some bare_token) E_ok) w_installed);
    vm_compute; reflexivity.
Defined.

(** Every position of every trace of the script satisfies [ordered_here]. *)
Lemma update_ordered (E : Env) (w : World) :
  all_splits ordered_here [] (trace (update E w)) = true.
Proof. run_cases E w; vm_compute; reflexivity. Qed.

(** C1. At every step that changes the payload (removal of the directory tree
    or of the launcher, extraction, ownership fix) the stop command has
    returned and the service cannot be running, whatever its state was when
    the run began; the start command is issued only after the ownership fix
    has returned or after the recovery was announced, and no step that changes
    the payload follows it. *)
Theorem service_stopped_while_payload_changes (E : Env) (w : World)
    (pre : list Event) (ev : Event) (post : list Event) :
  trace (update E w) = pre ++ ev :: post →
  (changes_payload ev = true →
     In (EExec stop_cmd true) pre ∧ ∀ running, may_run running pre = false)
  ∧ (start_issued ev = true →
     (In (EExec chown_cmd true) pre ∨ In (ELog Error (Text recovery_msg)) pre)
     ∧ Forall (λ e, changes_payload e = false) post).
Proof.
  intros Hsplit. apply ordered_here_sound.
  apply (all_splits_sound ordered_here [] _ (update_ordered E w) pre ev post Hsplit).
Qed.

Lemma service_stopped_while_payload_changes_witness :
  let tr := trace (update E_ok w_installed) in
  tr = take 6 tr ++ ERmTree alpinePath true :: drop 7 tr
  ∧ In (EExec stop_cmd true) (take 6 tr)
  ∧ ∀ running, may_run running (take 6 tr) = false.
Proof.
  intros tr.
  assert (Hsplit : tr = take 6 tr ++ ERmTree alpinePath true :: drop 7 tr)
    by (vm_compute; reflexivity).
  split; [exact Hsplit|].
  apply (service_stopped_while_payload_changes E_ok w_installed
           (take 6 tr) (ERmTree alpinePath true) (drop 7 tr) Hsplit).
  vm_compute; reflexivity.
Defined.

(** C2. A run in which the download succeeds and the extraction command fails:
    [run] ends the process inside the [try] block, so the [catch] block never
    runs, the recovery is not announced and the start command is never
    issued. *)
Theorem extract_failure_exits_without_restart :
  let o := update (failing tar_cmd E_ok) w_installed in
  In (EExec tar_cmd false) (trace o)
  ∧ fetch_failed (trace o) = false
  ∧ exit_code o = 1
  ∧ service_calls (trace o) = [Stop]
  ∧ ¬ In (ELog Error (Text recovery_msg)) (trace o).
Proof.
  cbv zeta. split; [|split; [|split; [|split]]].
  - apply list_elem_of_In, (bool_decide_eq_true_1 _). vm_compute; reflexivity.
  - vm_compute; reflexivity.
  - vm_compute; reflexivity.
  - vm_compute; reflexivity.
  - rewrite <-list_elem_of_In. apply (bool_decide_eq_false_1 _).
    vm_compute; reflexivity.
Qed.

(** The same in every run: after a failed extraction command nothing else is
    issued to the service controller. *)
Lemma extract_failure_never_restarts (E : Env) (w : World) :
  existsb (λ ev, bool_decide (ev = EExec tar_cmd false)) (trace (update E w)) = true →
  exit_code (update E w) = 1 ∧ service_calls (trace (update E w)) = [Stop].
Proof.
  run_cases E w; intros Htar; vm_compute in Htar; try discriminate Htar.
  all: split; reflexivity.
Qed.

(** C5. A run in which removing the old payload directory throws: the
    rejection of [main] is printed by the handler on the last line of the
    script and the process ends with status 0. *)
Theorem clearing_failure_exits_zero :
  let o := update (unremovable alpinePath E_ok) w_installed in
  clearing_threw (trace o) = true
  ∧ completed o = false
  ∧ exit_code o = 0
  ∧ last (trace o) = Some (ELog ConsoleError (Thrown (FsError alpinePath))).
Proof. vm_compute. repeat split; reflexivity. Qed.

(** The exit status of every run: 0 when [main] completes, when clearing
    the old payload throws or when the download never settles, 1 in every
    other case. *)
Lemma exit_code_cases (E : Env) (w : World) :
  exit_code (update E w)
  = if completed (update E w) || clearing_threw (trace (update E w))
       || download_stalled (trace (update E w))
    then 0 else 1.
Proof. run_cases E w; vm_compute; reflexivity. Qed.

(** C6, as the specification words it, fails: a run in which the stop command
    fails reports no duration at all. *)
Lemma failed_run_reports_no_duration :
  ¬ (∀ E w, ∃ ms, duration_reports (trace (update E w)) = [ms]).
Proof.
  intros Hall.
  destruct (Hall (failing stop_cmd E_ok) w_installed) as [ms Hms].
  vm_compute in Hms. discriminate Hms.
Qed.

(** C6, amended. A run that completes reports exactly one duration, the
    difference between the clock reading taken before the stop command and the
    one taken after the start command has returned; a run that does not
    complete reports none. *)
Theorem duration_reported_iff_completed (E : Env) (w : World) :
  let t0 := clock E (reads w) in
  let t1 := clock E (S (reads w)) in
  if completed (update E w)
  then duration_reports (trace (update E w)) = [t1 - t0]
       ∧ timeline (trace (update E w)) = [inl t0; inr Stop; inr Start; inl t1]
  else duration_reports (trace (update E w)) = [].
Proof.
  run_cases E w; cbn zeta; try reflexivity.
  all: split; reflexivity.
Qed.

(* ===================================================================== *)
(** ** Clearing the old payload, keeping the archive                      *)
(* ===================================================================== *)

Lemma fs_exists_None (p : string) (m : FS) : m !! p = None → fs_exists p m = false.
Proof.
  intros H. unfold fs_exists. rewrite H.
  apply bool_decide_eq_false_2. by intros [? ?].
Qed.

(** C8. When neither the payload directory nor the launcher exists, clearing
    does nothing: no removal is attempted, the file system is unchanged and
    nothing is thrown.  Clearing never ends the process, and it throws only
    when a removal it attempted threw. *)
Theorem clearStalePayload_noop_when_absent (E : Env) (w : World) :
  (fs w !! alpinePath = None → fs w !! runShPath = None →
   clearStalePayload E w = (Ret tt, w, []))
  ∧ (∀ e w' t, clearStalePayload E w = (Throw e, w', t) →
       ∃ p, (p = alpinePath ∨ p = runShPath)
            ∧ e = FsError p ∧ rm_throws E p = true)
  ∧ (∀ c w' t, clearStalePayload E w ≠ (Exit c, w', t)).
Proof.
  unfold clearStalePayload, existsSync, rmSync, unlinkSync, emit, throw, bind,
    ret, get_fs, set_fs.
  split; [|split].
  - intros Ha Hr. cbn.
    rewrite (fs_exists_None _ _ Ha). cbn.
    rewrite (fs_exists_None _ _ Hr). reflexivity.
  - intros e w' t. cbn.
    destruct (fs_exists alpinePath (fs w)); cbn.
    + destruct (rm_throws E alpinePath) eqn:Hthrow; cbn.
      * intros [= <- <- <-]. exists alpinePath. auto.
      * destruct (fs_exists runShPath _); cbn; [|discriminate].
        destruct (rm_throws E runShPath) eqn:Hthrow'; cbn; [|discriminate].
        intros [= <- <- <-]. exists runShPath. auto.
    + destruct (fs_exists runShPath _); cbn; [|discriminate].
      destruct (rm_throws E runShPath) eqn:Hthrow'; cbn; [|discriminate].
      intros [= <- <- <-]. exists runShPath. auto.
  - intros c w' t. cbn.
    repeat (first [ destruct (fs_exists _ _) | destruct (rm_throws E _) ]; cbn);
      discriminate.
Qed.

Lemma clearStalePayload_noop_when_absent_witness :
  fs w_fresh !! alpinePath = None
  ∧ fs w_fresh !! runShPath = None
  ∧ clearStalePayload E_ok w_fresh = (Ret tt, w_fresh, []).
Proof.
  assert (Ha : fs w_fresh !! alpinePath = None) by (vm_compute; reflexivity).
  assert (Hr : fs w_fresh !! runShPath = None) by (vm_compute; reflexivity).
  split; [exact Ha|]. split; [exact Hr|].
  exact (proj1 (clearStalePayload_noop_when_absent E_ok w_fresh) Ha Hr).
Defined.

Lemma update_unlink_after_extract (E : Env) (w : World) :
  all_splits unlink_after_extract [] (trace (update E w)) = true.
Proof. run_cases E w; vm_compute; reflexivity. Qed.

(** Membership of a concrete event in a concrete trace is decided. *)
Ltac decide_in H :=
  apply list_elem_of_In, (bool_decide_eq_true_2 _) in H; vm_compute in H.

(** C9. The script unlinks the archive only after the extraction command has
    returned successfully.  In a run in which the extraction command fails,
    and given that the command itself leaves the archive file alone, the
    archive is never unlinked and the final file system holds at the download
    path exactly the data that was downloaded. *)
Theorem archive_kept_when_extraction_fails (E : Env) (w : World) :
  (∀ pre ok post,
     trace (update E w) = pre ++ EUnlink downloadPath ok :: post →
     In (EExec tar_cmd true) pre)
  ∧ (In (EExec tar_cmd false) (trace (update E w)) →
     (∀ m : FS, sh_fs E tar_cmd m !! downloadPath = m !! downloadPath) →
     (∃ url data,
        In (EStream url downloadPath (Finished data)) (trace (update E w))
        ∧ fs (final (update E w)) !! downloadPath = Some (File data))
     ∧ ∀ ok, ¬ In (EUnlink downloadPath ok) (trace (update E w))).
Proof.
  split.
  - intros pre ok post Hsplit.
    pose proof (all_splits_sound _ [] _ (update_unlink_after_extract E w)
                  pre _ post Hsplit) as Hchk.
    unfold unlink_after_extract in Hchk. rewrite String.eqb_refl in Hchk.
    change ([] ++ pre) with pre in Hchk.
    by apply bool_decide_eq_true_1, list_elem_of_In in Hchk.
  - run_cases E w; intros Htar Hframe; decide_in Htar; try discriminate Htar.
    all: split;
      [ match goal with
        | Hs : http_stream _ ?u = Finished ?d |- _ => exists u, d
        end; split;
        [ apply list_elem_of_In; set_solver
        | cbn [fs final]; rewrite Hframe; unfold fs_write; apply lookup_insert_eq ]
      | intros ok Hin; simpl in Hin;
        repeat (destruct Hin as [Hin|Hin]; [try discriminate Hin|]);
        try exact Hin ].
    all: vm_compute in Hin; discriminate Hin.
Qed.

Lemma archive_kept_when_extraction_fails_witness :
  let o := update (failing tar_cmd E_ok) w_installed in
  In (EExec tar_cmd false) (trace o)
  ∧ (∀ m : FS, sh_fs (failing tar_cmd E_ok) tar_cmd m !! downloadPath
               = m !! downloadPath)
  ∧ (∃ url data,
       In (EStream url downloadPath (Finished data)) (trace o)
       ∧ fs (final o) !! downloadPath = Some (File data)).
Proof.
  intros o.
  assert (Htar : In (EExec tar_cmd false) (trace o))
    by (apply list_elem_of_In, (bool_decide_eq_true_1 _); vm_compute; reflexivity).
  assert (Hframe : ∀ m : FS, sh_fs (failing tar_cmd E_ok) tar_cmd m !! downloadPath
                             = m !! downloadPath).
  { intros m. cbn. rewrite String.eqb_refl.
    rewrite !lookup_insert_ne by (vm_compute; discriminate). reflexivity. }
  split; [exact Htar|]. split; [exact Hframe|].
  exact (proj1 (proj2 (archive_kept_when_extraction_fails
                         (failing tar_cmd E_ok) w_installed) Htar Hframe)).
Defined.

(* ===================================================================== *)
(** ** The resolver against its description                               *)
(* ===================================================================== *)

(** C7, as the specification words it, fails in both directions.  From an
    index listing two builds the resolver takes the first, and that build,
    number and hyphen included, is not a hexadecimal token; and a document
    that holds forty hexadecimal digits and a slash outside any href
    attribute resolves to nothing. *)
Lemma resolved_build_need_not_be_hex :
  (latestBuild sample_index = Some (sample_build +:+ "/")
   ∧ is_hex_build (sample_build +:+ "/") = false)
  ∧ (has_hex_token (String.list_ascii_of_string bare_token)
     ∧ latestBuild bare_token = None).
Proof.
  split; [split; vm_compute; reflexivity|]. split; [|vm_compute; reflexivity].
  exists [], (String.list_ascii_of_string "a654bcc2adfa27c4e020fc915a1a6343c3b4f921"), [].
  split; [reflexivity|]. split; [vm_compute; lia|].
  simpl. repeat (constructor; [reflexivity|]). constructor.
Qed.

(** C7, amended.  The resolver takes the leftmost place of the document where
    the text href= and a quote are followed by a run of 40 or more characters,
    each a digit, a hyphen or a letter a to f, then a slash and a quote; the
    build is that run with the slash, and the download URL is the index URL,
    the build and the archive name.  It finds nothing exactly when the
    document has no such place. *)
Theorem latestBuild_leftmost_href (data : string) :
  match latestBuild data with
  | Some b =>
      resolve data = Some (LATEST_URL +:+ b +:+ "fx.tar.xz")
      ∧ ∃ pre rest run post,
          String.list_ascii_of_string data = pre ++ rest
          ∧ occurs_here rest run post
          ∧ String.list_ascii_of_string b = run ++ [slash]
          ∧ ∀ pre' rest' run' post',
              String.list_ascii_of_string data = pre' ++ rest' →
              occurs_here rest' run' post' →
              (length pre ≤ length pre')%nat
  | None =>
      resolve data = None
      ∧ ∀ pre rest run post,
          String.list_ascii_of_string data = pre ++ rest →
          ¬ occurs_here rest run post
  end.
Proof.
  unfold resolve, latestBuild.
  destruct (regex_exec (String.list_ascii_of_string data)) as [g|] eqn:Hexec; simpl.
  - split; [reflexivity|].
    apply regex_exec_some in Hexec as (pre & rest & Hdata & Hm & Hleft).
    pose proof Hm as (run & post & Hocc & ->)%match_here_spec.
    exists pre, rest, run, post. repeat split; try done.
    + apply Hocc.
    + apply Hocc.
    + apply Hocc.
    + apply String.list_ascii_of_string_of_list_ascii.
    + intros pre' rest' run' post' Hdata' Hocc'.
      destruct (Nat.le_gt_cases (length pre) (length pre')) as [|Hlt]; [done|].
      specialize (Hleft pre' rest' Hdata' Hlt).
      assert (match_here rest' = Some (run' ++ [slash])) as Hsome
        by (apply match_here_spec; eauto).
      congruence.
  - split; [reflexivity|].
    intros pre rest run post Hdata Hocc.
    pose proof (regex_exec_none _ Hexec pre rest Hdata) as Hnone.
    assert (match_here rest = Some (run ++ [slash])) as Hsome
      by (apply match_here_spec; eauto).
    congruence.
Qed.

(* ===================================================================== *)
(** ** Further properties of the update script                            *)
(* ===================================================================== *)

(** X1. When the stop command fails the script ends with status 1 having
    done nothing else: no other command is issued, no file is removed or
    written by the script and no request is made; the file system is what
    the stop command itself left. *)
Theorem stop_failure_touches_nothing (E : Env) (w : World) :
  sh_ok E stop_cmd = false →
  exit_code (update E w) = 1
  ∧ commands (trace (update E w)) = [stop_cmd]
  ∧ Forall (λ ev, reaches_outside ev = false) (trace (update E w))
  ∧ fs (final (update E w)) = sh_fs E stop_cmd (fs w).
Proof.
  run_cases E w; intros Hstop; try congruence.
  repeat split. repeat constructor.
Qed.

Lemma stop_failure_touches_nothing_witness :
  sh_ok (failing stop_cmd E_ok) stop_cmd = false
  ∧ exit_code (update (failing stop_cmd E_ok) w_installed) = 1
  ∧ commands (trace (update (failing stop_cmd E_ok) w_installed)) = [stop_cmd].
Proof.
  assert (H : sh_ok (failing stop_cmd E_ok) stop_cmd = false) by reflexivity.
  split; [exact H|].
  pose proof (stop_failure_touches_nothing (failing stop_cmd E_ok) w_installed H)
    as (Hc & Hcmd & _).
  split; [exact Hc | exact Hcmd].
Defined.

(** X2. When the ownership command fails, the process exits with status 1
    and the service is left stopped: the recovery is not announced and the
    start command is never issued. *)
Theorem ownership_failure_leaves_service_stopped (E : Env) (w : World) :
  cmd_failed chown_cmd (trace (update E w)) = true →
  exit_code (update E w) = 1
  ∧ service_calls (trace (update E w)) = [Stop]
  ∧ recovery_announced (trace (update E w)) = false.
Proof.
  run_cases E w; intros Hfail; vm_compute in Hfail; try discriminate Hfail.
  all: repeat split; vm_compute; reflexivity.
Qed.

Lemma ownership_failure_leaves_service_stopped_witness :
  cmd_failed chown_cmd (trace (update (failing chown_cmd E_ok) w_installed)) = true
  ∧ service_calls (trace (update (failing chown_cmd E_ok) w_installed)) = [Stop].
Proof.
  assert (H : cmd_failed chown_cmd
                (trace (update (failing chown_cmd E_ok) w_installed)) = true)
    by (vm_compute; reflexivity).
  split; [exact H|].
  exact (proj1 (proj2 (ownership_failure_leaves_service_stopped
                         (failing chown_cmd E_ok) w_installed H))).
Defined.

(** X3. When the archive was extracted but unlinking it throws, the [catch]
    block takes over: the recovery is announced, the service is started on
    the newly extracted payload without the ownership command ever being
    issued, and the process exits with status 1. *)
Theorem unlink_failure_restarts_without_chown (E : Env) (w : World) :
  archive_unlink_failed (trace (update E w)) = true →
  exit_code (update E w) = 1
  ∧ service_calls (trace (update E w)) = [Stop; Start]
  ∧ recovery_announced (trace (update E w)) = true
  ∧ In (EExec tar_cmd true) (trace (update E w))
  ∧ chown_cmd ∉ commands (trace (update E w)).
Proof.
  run_cases E w; intros Hfail; vm_compute in Hfail; try discriminate Hfail.
  all: split; [reflexivity|]; split; [reflexivity|].
  all: split; [vm_compute; reflexivity|]; split.
  all: first
    [ apply list_elem_of_In, (bool_decide_eq_true_1 _); vm_compute; reflexivity
    | apply (bool_decide_eq_false_1 _); vm_compute; reflexivity ].
Qed.

Lemma unlink_failure_restarts_without_chown_witness :
  archive_unlink_failed
    (trace (update (unremovable downloadPath E_ok) w_installed)) = true
  ∧ service_calls (trace (update (unremovable downloadPath E_ok) w_installed))
    = [Stop; Start].
Proof.
  assert (H : archive_unlink_failed
                (trace (update (unremovable downloadPath E_ok) w_installed)) = true)
    by (vm_compute; reflexivity).
  split; [exact H|].
  exact (proj1 (proj2 (unlink_failure_restarts_without_chown
                         (unremovable downloadPath E_ok) w_installed H))).
Defined.

(** X4. A start command that fails is not retried: the process exits with
    status 1, the service controller was called exactly twice (stop, start)
    and no duration is reported. *)
Theorem start_failure_is_final (E : Env) (w : World) :
  cmd_failed start_cmd (trace (update E w)) = true →
  exit_code (update E w) = 1
  ∧ service_calls (trace (update E w)) = [Stop; Start]
  ∧ duration_reports (trace (update E w)) = [].
Proof.
  run_cases E w; intros Hfail; vm_compute in Hfail; try discriminate Hfail.
  all: repeat split; reflexivity.
Qed.

Lemma start_failure_is_final_witness :
  cmd_failed start_cmd (trace (update (failing start_cmd E_ok) w_installed)) = true
  ∧ exit_code (update (failing start_cmd E_ok) w_installed) = 1.
Proof.
  assert (H : cmd_failed start_cmd
                (trace (update (failing start_cmd E_ok) w_installed)) = true)
    by (vm_compute; reflexivity).
  split; [exact H|].
  exact (proj1 (start_failure_is_final (failing start_cmd E_ok) w_installed H)).
Defined.

(** X5. Nothing is retried: in every run each shell command is issued at most
    once, the index is requested at most once and at most one download is
    started. *)
Theorem nothing_is_retried (E : Env) (w : World) :
  NoDup (commands (trace (update E w)))
  ∧ (length (index_requests (trace (update E w))) ≤ 1)%nat
  ∧ (length (downloads (trace (update E w))) ≤ 1)%nat.
Proof.
  run_cases E w; split.
  all: try (apply (bool_decide_eq_true_1 _); vm_compute; reflexivity).
  all: split; cbn; lia.
Qed.

(** X6. The archive is only ever downloaded from the URL built from the
    build that the resolver found in the index body, and only into the
    fixed download path. *)
Theorem download_comes_from_resolved_build (E : Env) (w : World)
    (url path : string) (r : Download) :
  In (EStream url path r) (trace (update E w)) →
  path = downloadPath
  ∧ r = http_stream E url
  ∧ ∃ data build,
      http_get E LATEST_URL = Some data
      ∧ latestBuild data = Some build
      ∧ url = downloadUrl build.
Proof.
  run_cases E w; intros Hin; simpl in Hin.
  all: repeat (destruct Hin as [Hin|Hin]; [try discriminate Hin|]); try exact (False_ind _ Hin).
  all: injection Hin as <- <- <-; split; [reflexivity|]; split; [congruence|]; eauto.
Qed.

Lemma download_comes_from_resolved_build_witness :
  In (EStream (downloadUrl (sample_build +:+ "/")) downloadPath
        (Finished "fx.tar.xz contents"))
     (trace (update E_ok w_installed))
  ∧ ∃ data build,
      http_get E_ok LATEST_URL = Some data
      ∧ latestBuild data = Some build
      ∧ downloadUrl (sample_build +:+ "/") = downloadUrl build.
Proof.
  assert (H : In (EStream (downloadUrl (sample_build +:+ "/")) downloadPath
                    (Finished "fx.tar.xz contents"))
                 (trace (update E_ok w_installed)))
    by (apply list_elem_of_In, (bool_decide_eq_true_1 _); vm_compute; reflexivity).
  split; [exact H|].
  exact (proj2 (proj2 (download_comes_from_resolved_build E_ok w_installed _ _ _ H))).
Defined.

(** X7. In every run in which clearing the old payload does not throw and
    the download does not stay unsettled, the exit status tells whether the
    update completed: 0 when [main] reached its last line, 1 otherwise. *)
Theorem exit_status_tells_completion (E : Env) (w : World) :
  clearing_threw (trace (update E w)) = false →
  download_stalled (trace (update E w)) = false →
  exit_code (update E w) = if completed (update E w) then 0 else 1.
Proof.
  intros Hclear Hstall. rewrite exit_code_cases, Hclear, Hstall.
  by rewrite !orb_false_r.
Qed.

Lemma exit_status_tells_completion_witness :
  clearing_threw (trace (update (unfetchable E_ok) w_installed)) = false
  ∧ download_stalled (trace (update (unfetchable E_ok) w_installed)) = false
  ∧ exit_code (update (unfetchable E_ok) w_installed) = 1.
Proof.
  assert (H : clearing_threw (trace (update (unfetchable E_ok) w_installed)) = false)
    by (vm_compute; reflexivity).
  assert (H' : download_stalled (trace (update (unfetchable E_ok) w_installed)) = false)
    by (vm_compute; reflexivity).
  split; [exact H|]. split; [exact H'|].
  rewrite (exit_status_tells_completion (unfetchable E_ok) w_installed H H').
  vm_compute. reflexivity.
Defined.

(* ===================================================================== *)
(** ** What clearing and a completed run leave on disk                    *)
(* ===================================================================== *)

Lemma fs_remove_tree_lookup (p q : string) (m : FS) :
  fs_remove_tree p m !! q = if decide (inside p q) then None else m !! q.
Proof.
  unfold fs_remove_tree. rewrite map_lookup_filter.
  destruct (m !! q) as [x|]; simpl.
  - case_guard; case_decide; simpl in *; done.
  - by case_decide.
Qed.

Lemma fs_exists_false (p : string) (m : FS) : fs_exists p m = false → m !! p = None.
Proof.
  unfold fs_exists. intros H%bool_decide_eq_false_1.
  destruct (m !! p) eqn:Hp; [|done]. destruct H. eauto.
Qed.

Lemma fs_exists_true (p : string) (m : FS) : fs_exists p m = true ↔ is_Some (m !! p).
Proof. unfold fs_exists. apply bool_decide_eq_true. Qed.

Lemma runSh_outside_alpine : ¬ inside alpinePath runShPath.
Proof. apply (bool_decide_eq_false_1 _). vm_compute. reflexivity. Qed.

(** X8. When clearing returns normally, the payload directory, everything
    below it and the launcher are gone, every other path of the file system
    holds what it held before, and the clock was not read. *)
Theorem clearing_removes_only_the_payload (E : Env) (w w' : World) (t : list Event) :
  clearStalePayload E w = (Ret tt, w', t) →
  fs w' !! alpinePath = None
  ∧ fs w' !! runShPath = None
  ∧ (is_Some (fs w !! alpinePath) → ∀ q, inside alpinePath q → fs w' !! q = None)
  ∧ (∀ q, ¬ inside alpinePath q → q ≠ runShPath → fs w' !! q = fs w !! q)
  ∧ reads w' = reads w.
Proof.
  unfold clearStalePayload, existsSync, rmSync, unlinkSync, emit, throw, bind,
    ret, get_fs, set_fs. cbn.
  assert (Hself : inside alpinePath alpinePath) by (by left).
  destruct (fs_exists alpinePath (fs w)) eqn:Ha; cbn.
  - apply fs_exists_true in Ha.
    destruct (rm_throws E alpinePath); cbn; [discriminate|].
    destruct (fs_exists runShPath (fs_remove_tree alpinePath (fs w))) eqn:Hr; cbn.
    + destruct (rm_throws E runShPath); cbn; [discriminate|].
      intros [= <- <-]. cbn. unfold fs_unlink.
      repeat split.
      * rewrite lookup_delete_None. right.
        rewrite fs_remove_tree_lookup. by rewrite decide_True.
      * apply lookup_delete_eq.
      * intros _ q Hq. rewrite lookup_delete_None. right.
        rewrite fs_remove_tree_lookup. by rewrite decide_True.
      * intros q Hq Hne. rewrite lookup_delete_ne by done.
        rewrite fs_remove_tree_lookup. by rewrite decide_False.
    + apply fs_exists_false in Hr.
      intros [= <- <-]. cbn. repeat split.
      * rewrite fs_remove_tree_lookup. by rewrite decide_True.
      * done.
      * intros _ q Hq. rewrite fs_remove_tree_lookup. by rewrite decide_True.
      * intros q Hq Hne. rewrite fs_remove_tree_lookup. by rewrite decide_False.
  - pose proof (fs_exists_false _ _ Ha) as Hnone.
    destruct (fs_exists runShPath (fs w)) eqn:Hr; cbn.
    + destruct (rm_throws E runShPath); cbn; [discriminate|].
      intros [= <- <-]. cbn. unfold fs_unlink.
      repeat split.
      * rewrite lookup_delete_None. by right.
      * apply lookup_delete_eq.
      * intros [x Hx]. congruence.
      * intros q Hq Hne. by rewrite lookup_delete_ne.
    + apply fs_exists_false in Hr.
      intros [= <- <-]. repeat split; try done.
      intros [x Hx]. congruence.
Qed.

Lemma clearing_removes_only_the_payload_witness :
  ∃ w' t,
    clearStalePayload E_ok w_installed = (Ret tt, w', t)
    ∧ fs w' !! alpinePath = None
    ∧ fs w' !! runShPath = None
    ∧ fs w' !! SERVER_DIR = Some Dir.
Proof.
  destruct (clearStalePayload E_ok w_installed) as [[r w'] t] eqn:Hrun.
  assert (Hr : r = Ret tt) by (vm_compute in Hrun; congruence).
  subst r. exists w', t. split; [reflexivity|].
  pose proof (clearing_removes_only_the_payload E_ok w_installed w' t Hrun)
    as (Ha & Hs & _ & Hframe & _).
  split; [exact Ha|]. split; [exact Hs|].
  rewrite Hframe.
  - vm_compute. reflexivity.
  - apply (bool_decide_eq_false_1 _). vm_compute. reflexivity.
  - apply (bool_decide_eq_false_1 _). vm_compute. reflexivity.
Defined.

(** X9. A run that completes leaves no archive at the download path,
    provided the ownership and start commands do not themselves create one. *)
Theorem completed_run_removes_archive (E : Env) (w : World) :
  completed (update E w) = true →
  (∀ m : FS, sh_fs E chown_cmd m !! downloadPath = m !! downloadPath) →
  (∀ m : FS, sh_fs E start_cmd m !! downloadPath = m !! downloadPath) →
  fs (final (update E w)) !! downloadPath = None.
Proof.
  run_cases E w; intros Hdone Hchown Hstart; try discriminate Hdone.
  all: cbn [fs]; rewrite Hstart, Hchown; unfold fs_unlink; apply lookup_delete_eq.
Qed.

Lemma completed_run_removes_archive_witness :
  completed (update E_ok w_installed) = true
  ∧ fs (final (update E_ok w_installed)) !! downloadPath = None.
Proof.
  assert (H : completed (update E_ok w_installed) = true) by (vm_compute; reflexivity).
  split; [exact H|].
  apply (completed_run_removes_archive E_ok w_installed H).
  - intros m. reflexivity.
  - intros m. reflexivity.
Defined.

(* ===================================================================== *)
(** ** Further properties of the resolver                                 *)
(* ===================================================================== *)

Lemma list_ascii_of_string_app (s1 s2 : string) :
  String.list_ascii_of_string (s1 +:+ s2)
  = String.list_ascii_of_string s1 ++ String.list_ascii_of_string s2.
Proof. induction s1 as [|c s1 IH]; simpl; [done | by rewrite IH]. Qed.

Lemma length_list_ascii_of_string (s : string) :
  length (String.list_ascii_of_string s) = String.length s.
Proof. induction s as [|c s IH]; simpl; [done | by rewrite IH]. Qed.

Lemma match_here_head (c : ascii) (s g : list ascii) :
  match_here (c :: s) = Some g → c = "h"%char.
Proof.
  unfold match_here. change href_open with ("h"%char :: tail href_open).
  cbn [strip_prefix].
  destruct (Ascii.eqb_spec "h" c) as [<-|]; [done | discriminate].
Qed.

Lemma regex_exec_skip (c : ascii) (s : list ascii) :
  c ≠ "h"%char → regex_exec (c :: s) = regex_exec s.
Proof.
  intros Hc.
  change (regex_exec (c :: s))
    with (match match_here (c :: s) with
          | Some g => Some g
          | None => regex_exec s
          end).
  destruct (match_here (c :: s)) as [g|] eqn:Hm; [|done].
  by apply match_here_head in Hm.
Qed.

Lemma regex_exec_skip_all (pre s : list ascii) :
  Forall (λ c, c ≠ "h"%char) pre → regex_exec (pre ++ s) = regex_exec s.
Proof.
  induction 1 as [|c pre Hc _ IH]; [done|].
  simpl app. by rewrite regex_exec_skip.
Qed.

Lemma regex_exec_here (s g : list ascii) :
  match_here s = Some g → regex_exec s = Some g.
Proof.
  intros Hm. destruct s as [|c s]; [discriminate Hm|].
  change (regex_exec (c :: s))
    with (match match_here (c :: s) with
          | Some g => Some g
          | None => regex_exec s
          end).
  by rewrite Hm.
Qed.

(** X10. A document in which a build of 40 or more class characters is the
    target of an href attribute, with no letter h before that attribute,
    resolves to that build, whatever text follows the attribute. *)
Theorem first_listed_build_is_resolved (pre build rest : string) :
  Forall (λ c, c ≠ "h"%char) (String.list_ascii_of_string pre) →
  (40 ≤ String.length build)%nat →
  Forall (λ c, build_char c = true) (String.list_ascii_of_string build) →
  latestBuild (pre +:+ "href=" +:+ String quote (build +:+ "/" +:+ String quote rest))
  = Some (build +:+ "/").
Proof.
  intros Hpre Hlen Hclass. unfold latestBuild.
  rewrite list_ascii_of_string_app, regex_exec_skip_all by done.
  assert (match_here
            (String.list_ascii_of_string
               ("href=" +:+ String quote (build +:+ "/" +:+ String quote rest)))
          = Some (String.list_ascii_of_string build ++ [slash])) as Hm.
  { apply match_here_spec.
    exists (String.list_ascii_of_string build), (String.list_ascii_of_string rest).
    split; [|done]. split; [|split].
    - simpl. rewrite list_ascii_of_string_app. reflexivity.
    - by rewrite length_list_ascii_of_string.
    - done. }
  rewrite (regex_exec_here _ _ Hm). simpl. f_equal.
  rewrite <-(String.string_of_list_ascii_of_string (build +:+ "/")).
  f_equal. by rewrite list_ascii_of_string_app.
Qed.

Lemma first_listed_build_is_resolved_witness :
  latestBuild ("<a " +:+ "href=" +:+
               String quote (sample_build +:+ "/" +:+ String quote ">build</a>"))
  = Some (sample_build +:+ "/").
Proof.
  apply (first_listed_build_is_resolved "<a " sample_build ">build</a>").
  - simpl. repeat (constructor; [discriminate|]). constructor.
  - vm_compute. lia.
  - simpl. repeat (constructor; [reflexivity|]). constructor.
Defined.

Lemma match_here_app (s t g : list ascii) :
  match_here s = Some g → match_here (s ++ t) = Some g.
Proof.
  intros (run & post & (-> & Hlen & Hall) & ->)%match_here_spec.
  apply match_here_spec. exists run, (post ++ t). split; [|done].
  split; [|done]. by rewrite <-!app_assoc.
Qed.

Lemma build_char_not_h (c : ascii) : build_char c = true → c ≠ "h"%char.
Proof. intros Hc ->. discriminate Hc. Qed.

(** The text of a match, after its first letter, holds no letter h. *)
Lemma match_text_tail_no_h (run : list ascii) :
  Forall (λ c, build_char c = true) run →
  Forall (λ c, c ≠ "h"%char) (tail href_open ++ run ++ [slash; quote]).
Proof.
  intros Hrun. apply Forall_app. split.
  - simpl. repeat (constructor; [discriminate|]). constructor.
  - apply Forall_app. split.
    + eapply Forall_impl; [exact Hrun|]. apply build_char_not_h.
    + repeat (constructor; [discriminate|]). constructor.
Qed.

(** A position without a match, followed later by a match, stays without a
    match when the document is continued. *)
Lemma match_here_none_app (c : ascii) (s t g : list ascii) :
  match_here (c :: s) = None → regex_exec s = Some g →
  match_here ((c :: s) ++ t) = None.
Proof.
  intros Hnone Hlater.
  destruct (match_here ((c :: s) ++ t)) as [g'|] eqn:Hm; [exfalso|done].
  apply match_here_spec in Hm as (run & post & (Heq & Hlen & Hall) & ->).
  rewrite (app_assoc href_open run), (app_assoc _ [slash; quote] post : _ ++ slash :: quote :: post = _) in Heq.
  apply app_eq_inv in Heq as [(k & Hs & _)|(k & Hk & _)].
  - assert (match_here (c :: s) = Some (run ++ [slash])) as Hsome; [|congruence].
    apply match_here_spec. exists run, k. split; [|done].
    split; [|done]. rewrite Hs. by rewrite <-!app_assoc.
  - apply regex_exec_some in Hlater as (pre & rest' & -> & Hrest & _).
    apply match_here_spec in Hrest as (run' & post' & (-> & _) & _).
    pose proof (match_text_tail_no_h run Hall) as Hno.
    rewrite <-app_assoc in Hk. simpl in Hk. injection Hk as <- Hk.
    simpl in Hno. rewrite Hk in Hno.
    rewrite <-!app_assoc in Hno. simpl in Hno.
    apply Forall_app in Hno as [_ Hno]. by inversion Hno.
Qed.

Lemma regex_exec_app (s t g : list ascii) :
  regex_exec s = Some g → regex_exec (s ++ t) = Some g.
Proof.
  induction s as [|c s IH]; [discriminate|].
  intros Hs. simpl in Hs.
  destruct (match_here (c :: s)) as [g0|] eqn:Hm.
  - injection Hs as ->. by apply regex_exec_here, match_here_app.
  - change ((c :: s) ++ t) with (c :: (s ++ t)). simpl.
    change (c :: (s ++ t)) with ((c :: s) ++ t).
    rewrite (match_here_none_app c s t g Hm Hs). by apply IH.
Qed.

(** X11. Once a document resolves to a build, every continuation of the
    document resolves to the same build: text appended after the first match
    never changes the answer. *)
Theorem resolution_stable_under_append (data more build : string) :
  latestBuild data = Some build →
  latestBuild (data +:+ more) = Some build.
Proof.
  unfold latestBuild. rewrite list_ascii_of_string_app.
  destruct (regex_exec (String.list_ascii_of_string data)) as [g|] eqn:Hexec;
    [|discriminate].
  intros [= <-]. by rewrite (regex_exec_app _ _ g Hexec).
Qed.

Lemma resolution_stable_under_append_witness :
  latestBuild sample_index = Some (sample_build +:+ "/")
  ∧ latestBuild (sample_index +:+ anchor (older_build +:+ "/"))
    = Some (sample_build +:+ "/").
Proof.
  assert (H : latestBuild sample_index = Some (sample_build +:+ "/"))
    by (vm_compute; reflexivity).
  split; [exact H|].
  exact (resolution_stable_under_append sample_index _ _ H).
Defined.

(* ===================================================================== *)
(** ** The deployment script                                              *)
(* ===================================================================== *)

Module DeployFacts.
Import Deploy.

Lemma all_positions_sound {A} (chk : list A → A → list A → bool) (l0 l : list A) :
  all_positions chk l0 l = true →
  ∀ pre x post, l = pre ++ x :: post → chk (l0 ++ pre) x post = true.
Proof.
  revert l0. induction l as [|y l IH]; intros l0 Hall pre x post Heq.
  - by destruct pre.
  - simpl in Hall. apply andb_true_iff in Hall as [Hy Hrest].
    destruct pre as [|z pre]; simplify_eq/=.
    + by rewrite app_nil_r.
    + specialize (IH _ Hrest pre x post eq_refl).
      by rewrite <-app_assoc in IH.
Qed.

(** Every run of the deployment script has all the [facts]; a run by another
    user than root leaves the file system as it was; a complete run leaves
    the three files as written, up to what the commands issued after them do. *)
Lemma deploy_facts (E : DeployEnv) (w : World) :
  all_true (facts (is_root (uid E)) (answered_yes E)
              (exit_code (deploy E w)) (completed (deploy E w))
              (trace (deploy E w))) = true
  ∧ (is_root (uid E) = false → fs (final (deploy E w)) = fs w)
  ∧ (completed (deploy E w) = true →
     ∃ m cs,
       fs (final (deploy E w))
       = after_commands E cs
           (fs_write servicePath serviceContent
              (sh_fs (base E) chown_cmd
                 (fs_write startScriptPath startShContent
                    (fs_write serverCfgPath serverCfgContent m))))).
Proof.
  unfold answered_yes. deploy_cases E w.
  all: repeat match goal with
         | H : is_root _ = _ |- _ => rewrite H; clear H
         | H : answer _ = _ |- _ => rewrite H; clear H
         | H : String.eqb (toLowerCase _) _ = _ |- _ => rewrite H; clear H
         end.
  all: split; [vm_compute; reflexivity|].
  all: split; [intros Hr; try discriminate Hr; reflexivity|].
  all: intros Hd; try discriminate Hd.
  all: eexists _; first
    [ exists [reload_cmd; enable_cmd; allow_tcp_cmd; allow_udp_cmd; ufw_status_cmd];
      reflexivity
    | exists [reload_cmd; enable_cmd; allow_tcp_cmd; allow_udp_cmd; ufw_enable_cmd;
              ufw_status_cmd];
      reflexivity ].
Qed.

Lemma all_true_each (f : Facts) :
  all_true f = true →
  exit_status f = true ∧ known_once f = true ∧ in_order f = true
  ∧ failures_last f = true ∧ user_created f = true ∧ data_cloned f = true
  ∧ firewall f = true ∧ not_root f = true ∧ abandoned f = true
  ∧ all_done f = true.
Proof. unfold all_true. rewrite !andb_true_iff. tauto. Qed.

Lemma ran_ok_spec (c : string) (t : list DEvent) :
  ran_ok c t = true ↔ (c, true) ∈ executed t.
Proof. apply bool_decide_eq_true. Qed.

Lemma issued_spec (c : string) (t : list DEvent) :
  issued c t = true ↔ c ∈ commands t.
Proof. apply bool_decide_eq_true. Qed.

Lemma bool_eqb_iff (a b : bool) : Bool.eqb a b = true → (a = true ↔ b = true).
Proof. by destruct a, b. Qed.

(** X12. Run by any user other than root, the deployment script exits with
    status 1 having done nothing: it issues no command, makes no file system
    call or request, and leaves the file system as it was. *)
Theorem deploy_without_root_does_nothing (E : DeployEnv) (w : World) :
  uid E ≠ 0 →
  exit_code (deploy E w) = 1
  ∧ Forall (λ ev, acts ev = false) (trace (deploy E w))
  ∧ fs (final (deploy E w)) = fs w.
Proof.
  intros Huid.
  assert (Hroot : is_root (uid E) = false) by by apply Z.eqb_neq.
  destruct (deploy_facts E w) as (_ & Hfs & _).
  destruct (all_true_each _ (proj1 (deploy_facts E w))) as (_ & _ & _ & _ & _ & _ & _ & Hnot & _).
  simpl in Hnot. rewrite Hroot in Hnot. simpl in Hnot.
  apply andb_true_iff in Hnot as [Hcode Hacts].
  split; [by apply Z.eqb_eq|]. split; [|by apply Hfs].
  apply Forall_forall. intros ev Hev.
  rewrite forallb_forall in Hacts.
  apply negb_true_iff, Hacts. by apply list_elem_of_In.
Qed.

Lemma deploy_without_root_does_nothing_witness :
  uid (as_user 1000 D_ok) ≠ 0
  ∧ exit_code (deploy (as_user 1000 D_ok) w_bare) = 1
  ∧ fs (final (deploy (as_user 1000 D_ok) w_bare)) = fs w_bare.
Proof.
  assert (H : uid (as_user 1000 D_ok) ≠ 0) by discriminate.
  split; [exact H|].
  pose proof (deploy_without_root_does_nothing (as_user 1000 D_ok) w_bare H)
    as (Hc & _ & Hfs).
  split; [exact Hc | exact Hfs].
Defined.

(** X13. In every deployment in which none of the script's own file system
    calls outside the [try] block throws and no awaited promise (the
    download, the prompt) stays unsettled, the exit status tells whether the
    deployment completed: 0 when it did, 1 otherwise. *)
Theorem deploy_exit_status (E : DeployEnv) (w : World) :
  call_threw (trace (deploy E w)) = false →
  unsettled (trace (deploy E w)) = false →
  exit_code (deploy E w) = if completed (deploy E w) then 0 else 1.
Proof.
  intros Hcalls Hsettled.
  destruct (all_true_each _ (proj1 (deploy_facts E w))) as (Hexit & _).
  simpl in Hexit. apply Z.eqb_eq in Hexit.
  by rewrite Hexit, Hcalls, Hsettled, !orb_false_r.
Qed.

Lemma deploy_exit_status_witness :
  call_threw (trace (deploy (over (failing enable_cmd E_host) D_ok) w_bare)) = false
  ∧ unsettled (trace (deploy (over (failing enable_cmd E_host) D_ok) w_bare)) = false
  ∧ exit_code (deploy (over (failing enable_cmd E_host) D_ok) w_bare) = 1.
Proof.
  assert (H : call_threw
                (trace (deploy (over (failing enable_cmd E_host) D_ok) w_bare)) = false)
    by (vm_compute; reflexivity).
  assert (H' : unsettled
                 (trace (deploy (over (failing enable_cmd E_host) D_ok) w_bare)) = false)
    by (vm_compute; reflexivity).
  split; [exact H|]. split; [exact H'|].
  rewrite (deploy_exit_status _ _ H H'). vm_compute. reflexivity.
Defined.

(** X14. The deployment issues only the eleven commands it is written with,
    each at most once; in particular it never starts the service it
    installs. *)
Theorem deploy_commands_known_once (E : DeployEnv) (w : World) :
  Forall (λ c, c ∈ known_commands) (commands (trace (deploy E w)))
  ∧ NoDup (commands (trace (deploy E w)))
  ∧ "systemctl start fivem" ∉ commands (trace (deploy E w)).
Proof.
  destruct (all_true_each _ (proj1 (deploy_facts E w))) as (_ & Hknown & _). simpl in Hknown.
  apply andb_true_iff in Hknown as [Hall Hnodup].
  assert (Forall (λ c, c ∈ known_commands) (commands (trace (deploy E w)))) as HF.
  { apply Forall_forall. intros c Hc. rewrite forallb_forall in Hall.
    apply (bool_decide_eq_true_1 _), Hall. by apply list_elem_of_In. }
  split; [exact HF|]. split; [by apply bool_decide_eq_true_1 in Hnodup|].
  intros Hin. rewrite Forall_forall in HF. specialize (HF _ Hin).
  revert HF. apply (bool_decide_eq_false_1 _). vm_compute. reflexivity.
Qed.

(** X15. No failure is ignored: a command that fails is either the probe
    for the user, or the last command the script issues, and the process
    then exits with status 1. *)
Theorem failed_command_ends_deployment (E : DeployEnv) (w : World)
    (pre : list (string * bool)) (c : string) (post : list (string * bool)) :
  executed (trace (deploy E w)) = pre ++ (c, false) :: post →
  c = id_cmd ∨ (post = [] ∧ exit_code (deploy E w) = 1).
Proof.
  intros Hsplit.
  destruct (all_true_each _ (proj1 (deploy_facts E w))) as (_ & _ & _ & Hlast & _). simpl in Hlast.
  pose proof (all_positions_sound _ [] _ Hlast pre _ post Hsplit) as Hchk.
  unfold failure_is_last in Hchk.
  apply orb_true_iff in Hchk as [Hid|Hend].
  - left. by apply String.eqb_eq.
  - right. apply andb_true_iff in Hend as [Hnil Hcode].
    split; [by apply bool_decide_eq_true_1 in Hnil | by apply Z.eqb_eq].
Qed.

Lemma failed_command_ends_deployment_witness :
  executed (trace (deploy (over (failing chown_cmd E_host) D_ok) w_bare))
  = [(id_cmd, true); (tar_cmd, true); (clone_cmd, true)] ++ (chown_cmd, false) :: []
  ∧ exit_code (deploy (over (failing chown_cmd E_host) D_ok) w_bare) = 1.
Proof.
  assert (H : executed (trace (deploy (over (failing chown_cmd E_host) D_ok) w_bare))
              = [(id_cmd, true); (tar_cmd, true); (clone_cmd, true)]
                ++ (chown_cmd, false) :: []) by (vm_compute; reflexivity).
  split; [exact H|].
  destruct (failed_command_ends_deployment _ _ _ _ _ H) as [Hid|[_ Hc]].
  - vm_compute in Hid. discriminate Hid.
  - exact Hc.
Defined.

(** X16. The user is created exactly when the probe for it fails: useradd
    is issued in the runs in which the id command failed, after it, and in
    no other run. *)
Theorem user_created_iff_probe_fails (E : DeployEnv) (w : World) :
  (useradd_cmd ∈ commands (trace (deploy E w))
   ↔ (id_cmd, false) ∈ executed (trace (deploy E w)))
  ∧ ∀ pre ok post,
      trace (deploy E w) = pre ++ Base (EExec useradd_cmd ok) :: post →
      (id_cmd, false) ∈ executed pre.
Proof.
  destruct (all_true_each _ (proj1 (deploy_facts E w))) as (_ & _ & Horder & _ & Huser & _). split.
  - simpl in Huser. apply bool_eqb_iff in Huser.
    by rewrite issued_spec, bool_decide_eq_true in Huser.
  - intros pre ok post Hsplit. simpl in Horder.
    pose proof (all_positions_sound _ [] _ Horder pre _ post Hsplit) as Hchk.
    unfold prepared in Hchk. rewrite String.eqb_refl in Hchk.
    by apply bool_decide_eq_true_1 in Hchk.
Qed.

Lemma user_created_iff_probe_fails_witness :
  let t := trace (deploy (over (failing id_cmd E_host) D_ok) w_bare) in
  (id_cmd, false) ∈ executed t ∧ useradd_cmd ∈ commands t.
Proof.
  intros t.
  assert (H : (id_cmd, false) ∈ executed t)
    by (apply (bool_decide_eq_true_1 _); vm_compute; reflexivity).
  split; [exact H|].
  exact (proj2 (proj1 (user_created_iff_probe_fails
                         (over (failing id_cmd E_host) D_ok) w_bare)) H).
Defined.




(** The input ending at the prompt: the promise of [askQuestion] never
    settles, the process ends with status 0 with [main] unfinished, and the
    firewall is not enabled. *)
Example unanswered_prompt_ends_quietly :
  let o := deploy (unanswered D_ok) w_bare in
  unsettled (trace o) = true
  ∧ completed o = false
  ∧ exit_code o = 0
  ∧ issued ufw_enable_cmd (trace o) = false.
Proof. cbv zeta. repeat split; vm_compute; reflexivity. Qed.




(** X19. When the installation of the server does not succeed (the [catch]
    block ran, the extraction command failed, or the download ended
    otherwise than with the writer's 'finish'), the deployment stops there:
    none of the three files is written, no command beyond the probe, useradd
    and tar is issued, and the exit status is 1 unless the download stays
    unsettled. *)
Theorem failed_install_stops_deployment (E : DeployEnv) (w : World) :
  gave_up (trace (deploy E w)) || tar_failed (trace (deploy E w))
    || fetch_failed (shared (trace (deploy E w))) = true →
  written (trace (deploy E w)) = []
  ∧ Forall (λ c, c ∈ [id_cmd; useradd_cmd; tar_cmd]) (commands (trace (deploy E w)))
  ∧ (unsettled (trace (deploy E w)) = false → exit_code (deploy E w) = 1).
Proof.
  intros Hfail.
  destruct (all_true_each _ (proj1 (deploy_facts E w)))
    as (_ & _ & _ & _ & _ & _ & _ & _ & Hgive & _).
  simpl in Hgive. rewrite Hfail in Hgive. simpl in Hgive.
  apply andb_true_iff in Hgive as [[Hcode Hw]%andb_true_iff Hcmds].
  split; [by apply bool_decide_eq_true_1 in Hw|]. split.
  - apply Forall_forall. intros c Hc. rewrite forallb_forall in Hcmds.
    apply (bool_decide_eq_true_1 _), Hcmds. by apply list_elem_of_In.
  - intros Hsettled. rewrite Hsettled in Hcode. by apply Z.eqb_eq.
Qed.

Lemma failed_install_stops_deployment_witness :
  let t := trace (deploy (over (streaming OpenFailed E_host) D_ok) w_bare) in
  gave_up t || tar_failed t || fetch_failed (shared t) = true
  ∧ written t = []
  ∧ exit_code (deploy (over (streaming OpenFailed E_host) D_ok) w_bare) = 1.
Proof.
  intros t.
  assert (H : gave_up t || tar_failed t || fetch_failed (shared t) = true)
    by (vm_compute; reflexivity).
  split; [exact H|].
  pose proof (failed_install_stops_deployment _ _ H) as (Hw & _ & Hcode).
  split; [exact Hw|]. apply Hcode. vm_compute. reflexivity.
Defined.

(** X20. The steps come in order: a file is written only after the archive
    was extracted and removed; systemd is reloaded only after ownership was
    set and the unit file written; the unit is enabled only after the
    reload succeeded. *)
Theorem deployment_steps_in_order (E : DeployEnv) (w : World)
    (pre : list DEvent) (ev : DEvent) (post : list DEvent) :
  trace (deploy E w) = pre ++ ev :: post →
  (∀ p d ok, ev = EWriteFile p d ok →
     (tar_cmd, true) ∈ executed pre ∧ Base (EUnlink downloadPath true) ∈ pre)
  ∧ (∀ ok, ev = Base (EExec reload_cmd ok) →
     (chown_cmd, true) ∈ executed pre ∧ servicePath ∈ written pre)
  ∧ (∀ ok, ev = Base (EExec enable_cmd ok) → (reload_cmd, true) ∈ executed pre).
Proof.
  intros Hsplit.
  destruct (all_true_each _ (proj1 (deploy_facts E w))) as (_ & _ & Horder & _). simpl in Horder.
  pose proof (all_positions_sound _ [] _ Horder pre _ post Hsplit) as Hchk.
  change ([] ++ pre) with pre in Hchk.
  split; [|split].
  - intros p d ok ->. simpl in Hchk.
    apply andb_true_iff in Hchk as [Ht Hu].
    split; [by apply ran_ok_spec | by apply bool_decide_eq_true_1 in Hu].
  - intros ok ->.
    assert (prepared pre (Base (EExec reload_cmd ok)) post
            = ran_ok chown_cmd pre && bool_decide (servicePath ∈ written pre))
      as Heq by reflexivity.
    rewrite Heq in Hchk. apply andb_true_iff in Hchk as [Hc Hw].
    split; [by apply ran_ok_spec | by apply bool_decide_eq_true_1 in Hw].
  - intros ok ->.
    assert (prepared pre (Base (EExec enable_cmd ok)) post = ran_ok reload_cmd pre)
      as Heq by reflexivity.
    rewrite Heq in Hchk. by apply ran_ok_spec.
Qed.

Lemma deployment_steps_in_order_witness :
  let t := trace (deploy D_ok w_bare) in
  t = take 39 t ++ Base (EExec enable_cmd true) :: drop 40 t
  ∧ (reload_cmd, true) ∈ executed (take 39 t).
Proof.
  intros t.
  assert (H : t = take 39 t ++ Base (EExec enable_cmd true) :: drop 40 t)
    by (vm_compute; reflexivity).
  split; [exact H|].
  exact (proj2 (proj2 (deployment_steps_in_order D_ok w_bare _ _ _ H)) true eq_refl).
Defined.

(** X21. A deployment that completes has done every step: the archive was
    extracted, the three files were written in order, the operator was
    asked, and ownership, reload, enable, both port rules and the status
    command all succeeded. *)
Theorem completed_deployment_did_every_step (E : DeployEnv) (w : World) :
  completed (deploy E w) = true →
  Forall (λ c, (c, true) ∈ executed (trace (deploy E w)))
    [tar_cmd; chown_cmd; reload_cmd; enable_cmd;
     allow_tcp_cmd; allow_udp_cmd; ufw_status_cmd]
  ∧ written (trace (deploy E w)) = [serverCfgPath; startScriptPath; servicePath]
  ∧ question_asked (trace (deploy E w)) = true.
Proof.
  intros Hdone.
  destruct (all_true_each _ (proj1 (deploy_facts E w))) as (_ & _ & _ & _ & _ & _ & _ & _ & _ & Hall).
  simpl in Hall. rewrite Hdone in Hall. simpl in Hall.
  apply andb_true_iff in Hall as [[Hcmds Hw]%andb_true_iff Hq].
  split; [|split; [by apply bool_decide_eq_true_1 in Hw | exact Hq]].
  rewrite !andb_true_iff, !ran_ok_spec in Hcmds.
  repeat (constructor; [tauto|]). constructor.
Qed.

Lemma completed_deployment_did_every_step_witness :
  completed (deploy D_ok w_bare) = true
  ∧ written (trace (deploy D_ok w_bare)) = [serverCfgPath; startScriptPath; servicePath].
Proof.
  assert (H : completed (deploy D_ok w_bare) = true) by (vm_compute; reflexivity).
  split; [exact H|].
  exact (proj1 (proj2 (completed_deployment_did_every_step D_ok w_bare H))).
Defined.

Lemma after_commands_frame (E : DeployEnv) (p : string) (cs : list string) (m : FS) :
  (∀ c m', sh_fs (base E) c m' !! p = m' !! p) →
  after_commands E cs m !! p = m !! p.
Proof.
  intros Hframe. unfold after_commands. revert m.
  induction cs as [|c cs IH]; intros m; simpl; [done|].
  by rewrite IH, Hframe.
Qed.

(** X22. A deployment that completes leaves the configuration, the start
    script and the unit file holding exactly the templates, whatever was
    at those paths before, provided no shell command touches them. *)
Theorem completed_deployment_files (E : DeployEnv) (w : World) :
  completed (deploy E w) = true →
  (∀ p, p ∈ [serverCfgPath; startScriptPath; servicePath] →
        ∀ c m, sh_fs (base E) c m !! p = m !! p) →
  fs (final (deploy E w)) !! serverCfgPath = Some (File serverCfgContent)
  ∧ fs (final (deploy E w)) !! startScriptPath = Some (File startShContent)
  ∧ fs (final (deploy E w)) !! servicePath = Some (File serviceContent).
Proof.
  intros Hdone Hframe.
  destruct (deploy_facts E w) as (_ & _ & Hfs).
  destruct (Hfs Hdone) as (m & cs & ->).
  assert (Hne1 : startScriptPath ≠ serverCfgPath) by (vm_compute; discriminate).
  assert (Hne2 : servicePath ≠ serverCfgPath) by (vm_compute; discriminate).
  assert (Hne3 : servicePath ≠ startScriptPath) by (vm_compute; discriminate).
  assert (Hcfg : serverCfgPath ∈ [serverCfgPath; startScriptPath; servicePath])
    by (rewrite !elem_of_cons; auto).
  assert (Hsh : startScriptPath ∈ [serverCfgPath; startScriptPath; servicePath])
    by (rewrite !elem_of_cons; auto).
  assert (Hunit : servicePath ∈ [serverCfgPath; startScriptPath; servicePath])
    by (rewrite !elem_of_cons; auto).
  unfold fs_write. repeat split.
  - rewrite after_commands_frame by (by apply Hframe).
    rewrite lookup_insert_ne by done. rewrite (Hframe _ Hcfg).
    rewrite lookup_insert_ne by done. apply lookup_insert_eq.
  - rewrite after_commands_frame by (by apply Hframe).
    rewrite lookup_insert_ne by done. rewrite (Hframe _ Hsh).
    apply lookup_insert_eq.
  - rewrite after_commands_frame by (by apply Hframe).
    apply lookup_insert_eq.
Qed.

Lemma completed_deployment_files_witness :
  completed (deploy D_ok w_bare) = true
  ∧ fs (final (deploy D_ok w_bare)) !! serverCfgPath = Some (File serverCfgContent).
Proof.
  assert (H : completed (deploy D_ok w_bare) = true) by (vm_compute; reflexivity).
  split; [exact H|].
  refine (proj1 (completed_deployment_files D_ok w_bare H _)).
  intros p Hp c m. cbn.
  destruct (String.eqb c tar_cmd); [|reflexivity].
  rewrite !elem_of_cons, elem_of_nil in Hp.
  destruct Hp as [->|[->|[->|[]]]];
    rewrite !lookup_insert_ne by (vm_compute; discriminate); reflexivity.
Defined.





End DeployFacts.
